(** * The trigger-sdk client runtime (packages/trigger-sdk/src/client.ts)

    A shallow embedding of [TriggerClient]: its constructor, the startup
    sequence [listen], the [TRIGGER_WORKFLOW] handler with the invocation
    context it builds, and the retrying [#send].

    Asynchronous code is modelled by explicit state passing.  A computation
    of type [Async A] takes the world (the client's private fields, the
    transcript of observable effects, the promises nobody awaits) and gives
    back how its promise settles together with the new world.  The remote
    service is a script: the [n]-th call that reaches the RPC channel gets
    the [n]-th reply.  The only loop of the program, [while (true)] in
    [#send], is run with fuel; a promise that is still waiting when the fuel
    is gone is [Pending]. *)

From Stdlib Require Import SpecFloat.
From stdpp Require Import gmap strings list pretty.

Set Warnings "-register-all".

(** ** JavaScript data *)

(** The values a workflow returns, throws, logs or fires: [undefined],
    [null], booleans, numbers (IEEE 754 doubles, as [spec_float]), bigints,
    strings, symbols, functions, arrays, and plain objects as the list of
    their own enumerable properties in enumeration order (an object never
    has two properties of one name; one of them may be a [toJSON] method).
    A function is taken by the value a call of it returns, which is what
    [JSON.stringify] asks of a [toJSON] method.  [JsCircular] is an object
    that is reached again from itself while it is serialized. *)
Inductive JsValue : Type :=
| JsUndefined
| JsNull
| JsBool (b : bool)
| JsNumber (x : spec_float)
| JsBigInt (n : Z)
| JsString (s : string)
| JsSymbol (description : string)
| JsFunction (returns : JsValue)
| JsArray (elems : list JsValue)
| JsObject (props : list (string * JsValue))
| JsCircular.

(** A JSON text, by its syntax tree.  [JSON.stringify] without indentation
    writes no insignificant white space, so the tree determines the text. *)
Inductive Json : Type :=
| JNull
| JBool (b : bool)
| JNumber (x : spec_float)
| JString (s : string)
| JArray (items : list Json)
| JObject (members : list (string * Json)).

(** ** Errors and thrown values *)

(** The constructor a thrown error was made with.  [TimeoutError] comes
    from ./connection, which is not among the sources; it is taken to extend
    [Error], as every other error class does. *)
Inductive ErrorClass : Type :=
| Class_Error
| Class_TimeoutError
| Class_Other (ctor : string).

Record JsError : Type := mkJsError {
  err_class : ErrorClass;
  err_name : string;
  err_message : string;
  err_stack : option string
}.

(** Anything can be thrown: an [Error] instance or any other value. *)
Inductive Thrown : Type :=
| ThrownError (e : JsError)
| ThrownValue (v : JsValue).

(** [new Error(message)].  The stack text the engine captures is not
    modelled: errors made by the client or by the engine carry none. *)
Definition new_Error (message : string) : Thrown :=
  ThrownError (mkJsError Class_Error "Error" message None).

(** The errors of [JSON.stringify] and [JSON.parse]; the messages are the
    engine's. *)
Definition TypeError_BigInt : Thrown :=
  ThrownError (mkJsError (Class_Other "TypeError") "TypeError"
                 "Do not know how to serialize a BigInt" None).

Definition TypeError_circular : Thrown :=
  ThrownError (mkJsError (Class_Other "TypeError") "TypeError"
                 "Converting circular structure to JSON" None).

Definition SyntaxError_undefined : Thrown :=
  ThrownError (mkJsError (Class_Other "SyntaxError") "SyntaxError"
                 "Unexpected token u in JSON at position 0" None).

Definition instanceof_TimeoutError (t : Thrown) : bool :=
  match t with
  | ThrownError e =>
      match err_class e with Class_TimeoutError => true | _ => false end
  | ThrownValue _ => false
  end.

(** ** JSON *)

(** Number literals: a finite double is written so that reading it back
    gives the same double, negative zero is written [0], and [NaN] and the
    infinities are written [null]. *)
Definition SerializeJSONNumber (x : spec_float) : Json :=
  match x with
  | S754_nan => JNull
  | S754_infinity _ => JNull
  | S754_zero _ => JNumber (S754_zero false)
  | S754_finite _ _ _ => JNumber x
  end.

(** The [toJSON] method of an object, when its property of that name is a
    function: what a call of it returns. *)
Fixpoint toJSON (props : list (string * JsValue)) : option JsValue :=
  match props with
  | [] => None
  | p :: rest =>
      if String.eqb (fst p) "toJSON" then
        match snd p with
        | JsFunction returns => Some returns
        | _ => None
        end
      else toJSON rest
  end.

(** The elements of an array, serialized in order: the first one that
    throws ends it, one that gives [undefined] is written [null]. *)
Fixpoint SerializeJSONArray (elems : list (Thrown + option Json)) : Thrown + list Json :=
  match elems with
  | [] => inr []
  | inl err :: _ => inl err
  | inr element :: rest =>
      match SerializeJSONArray rest with
      | inl err => inl err
      | inr items => inr (default JNull element :: items)
      end
  end.

(** The properties of an object, serialized in order: the first one that
    throws ends it, one that gives [undefined] is left out. *)
Fixpoint SerializeJSONObject (props : list (string * (Thrown + option Json)))
  : Thrown + list (string * Json) :=
  match props with
  | [] => inr []
  | p :: rest =>
      match snd p with
      | inl err => inl err
      | inr property =>
          match SerializeJSONObject rest with
          | inl err => inl err
          | inr members =>
              inr (match property with
                   | Some j => (fst p, j) :: members
                   | None => members
                   end)
          end
      end
  end.

Definition text_of {A} (f : A -> Json) (r : Thrown + A) : Thrown + option Json :=
  match r with
  | inl err => inl err
  | inr a => inr (Some (f a))
  end.

(** A value written as JSON, once its own [toJSON] has had its turn: it
    throws ([inl]), gives [undefined] ([inr None]) or gives a text.  Each
    element and each property value goes through [SerializeJSONProperty],
    which calls its [toJSON] method when it has one. *)
Fixpoint SerializeJSONValue (v : JsValue) : Thrown + option Json :=
  let SerializeJSONProperty := fun e : JsValue =>
    match e with
    | JsObject props =>
        match (fix toJSON_result (l : list (string * JsValue))
                 : option (Thrown + option Json) :=
                 match l with
                 | [] => None
                 | p :: rest =>
                     if String.eqb (fst p) "toJSON" then
                       match snd p with
                       | JsFunction returns => Some (SerializeJSONValue returns)
                       | _ => None
                       end
                     else toJSON_result rest
                 end) props with
        | Some result => result
        | None => SerializeJSONValue e
        end
    | _ => SerializeJSONValue e
    end in
  match v with
  | JsUndefined => inr None
  | JsNull => inr (Some JNull)
  | JsBool b => inr (Some (JBool b))
  | JsNumber x => inr (Some (SerializeJSONNumber x))
  | JsBigInt _ => inl TypeError_BigInt
  | JsString s => inr (Some (JString s))
  | JsSymbol _ => inr None
  | JsFunction _ => inr None
  | JsArray elems => text_of JArray (SerializeJSONArray (map SerializeJSONProperty elems))
  | JsObject props =>
      text_of JObject
        (SerializeJSONObject (map (fun p => (fst p, SerializeJSONProperty (snd p))) props))
  | JsCircular => inl TypeError_circular
  end.

Definition SerializeJSONProperty (v : JsValue) : Thrown + option Json :=
  match v with
  | JsObject props =>
      match toJSON props with
      | Some returns => SerializeJSONValue returns
      | None => SerializeJSONValue v
      end
  | _ => SerializeJSONValue v
  end.

(** [JSON.stringify(v)] *)
Definition JSON_stringify (v : JsValue) : Thrown + option Json :=
  SerializeJSONProperty v.

(** Defining a property on an object under construction: a name seen
    before keeps its place and takes the new value. *)
Fixpoint define_property (props : list (string * JsValue)) (k : string) (v : JsValue)
  : list (string * JsValue) :=
  match props with
  | [] => [(k, v)]
  | (k', v') :: rest =>
      if String.eqb k' k then (k', v) :: rest
      else (k', v') :: define_property rest k v
  end.

Definition build_object (members : list (string * JsValue)) : list (string * JsValue) :=
  fold_left (fun acc p => define_property acc (fst p) (snd p)) members [].

(** [JSON.parse] of a well-formed text. *)
Fixpoint JSON_parse (j : Json) : JsValue :=
  match j with
  | JNull => JsNull
  | JBool b => JsBool b
  | JNumber x => JsNumber x
  | JString s => JsString s
  | JArray items => JsArray (map JSON_parse items)
  | JObject members =>
      JsObject (build_object (map (fun m => (fst m, JSON_parse (snd m))) members))
  end.

(** [JSON.parse(JSON.stringify(event))].  What [stringify] throws escapes;
    when [stringify] gives [undefined], [parse] reads the text "undefined"
    and throws a [SyntaxError]. *)
Definition JSON_roundtrip (event : JsValue) : Thrown + JsValue :=
  match JSON_stringify event with
  | inl err => inl err
  | inr (Some text) => inr (JSON_parse text)
  | inr None => inl SyntaxError_undefined
  end.

(** ** Payloads that survive the round trip *)

(** A number a JSON text carries as it is: finite, and not negative zero. *)
Definition representable (x : spec_float) : bool :=
  match x with
  | S754_finite _ _ _ => true
  | S754_zero negative => negb negative
  | _ => false
  end.

(** The base payload types: strings, numbers, booleans, nested records and
    arrays.  A record has no two properties of one name. *)
Fixpoint base_payload (v : JsValue) : bool :=
  match v with
  | JsString _ => true
  | JsNumber _ => true
  | JsBool _ => true
  | JsArray elems => forallb base_payload elems
  | JsObject props =>
      bool_decide (NoDup (map fst props))
      && forallb (fun p => base_payload (snd p)) props
  | _ => false
  end.

(** Every number inside [v] is [representable]. *)
Fixpoint numbers_representable (v : JsValue) : bool :=
  match v with
  | JsNumber x => representable x
  | JsArray elems => forallb numbers_representable elems
  | JsObject props => forallb (fun p => numbers_representable (snd p)) props
  | _ => true
  end.

(** ** The wire protocol

    The methods of internal-bridge's [ServerRPCSchema] with the requests
    client.ts builds for them, and the one inbound command of
    [HostRPCSchema]. *)
Inductive MethodName : Type :=
| INITIALIZE_HOST
| SEND_LOG
| SEND_EVENT
| COMPLETE_WORKFLOW_RUN
| SEND_WORKFLOW_ERROR.

(** What [parseAnyError] returns. *)
Record ErrorDescription : Type := mkErrorDescription {
  name : string;
  message : string;
  stackTrace : option string
}.

(** A string-valued field filled with [JSON.stringify(...)] holds the JSON
    text, or [undefined] ([None]) when [stringify] gives that. *)
Inductive Request : Type :=
| InitializeHost (apiKey workflowId workflowName : string) (trigger : JsValue)
    (packageVersion packageName : string)
| SendLog (id : string) (level : string) (msg : string) (properties : option Json)
| SendEvent (id : string) (event : JsValue)
| CompleteWorkflowRun (id : string) (output : option Json) (workflowId : string)
| SendWorkflowError (id : string) (workflowId : string) (error : ErrorDescription).

(** A response, as [#initializeHost] looks at it: its [type] is "success",
    or "error" with a [message], or it is something else ([undefined]
    included). *)
Inductive Response : Type :=
| ResponseSuccess
| ResponseError (msg : string)
| ResponseOther (v : JsValue).

(** How one call on the channel ends: it throws, or it gives a response. *)
Definition Reply : Type := Thrown + Response.

(** The payload of [TRIGGER_WORKFLOW]. *)
Record TriggerMeta : Type := mkTriggerMeta {
  meta_environment : string;
  meta_apiKey : string;
  meta_organizationId : string;
  meta_workflowId : string
}.

Record TriggerWorkflow : Type := mkTriggerWorkflow {
  data_id : string;
  data_meta : TriggerMeta;
  data_trigger_input : JsValue
}.

(** ** Promises and user code *)

Inductive Promise (A : Type) : Type :=
| Fulfilled (a : A)
| Rejected (reason : Thrown)
| Pending.
Arguments Fulfilled {A} a.
Arguments Rejected {A} reason.
Arguments Pending {A}.

(** How a promise settled, without its value. *)
Definition forget {A} (p : Promise A) : Promise unit :=
  match p with
  | Fulfilled _ => Fulfilled tt
  | Rejected e => Rejected e
  | Pending => Pending
  end.

(** The data fields of [TriggerContext]; its [logger] and [fireEvent] are
    the closures [ctx_logger] and [ctx_fireEvent] below. *)
Record TriggerContext : Type := mkTriggerContext {
  ctx_id : string;
  ctx_environment : string;
  ctx_apiKey : string;
  ctx_organizationId : string
}.

(** A run function, by what it does with its context.  The promise it
    returns resolves ([Return_]), rejects ([Throw_], what an async function
    throws) or never settles ([Never_]); a run function that is no async
    function can also throw before it returns a promise ([ThrowSync_]).  On
    the way it calls [ctx.logger] or [ctx.fireEvent] and goes on according
    to how that call's promise settled (it may let a rejection escape, catch
    it, or not look at it at all). *)
Inductive UserProg : Type :=
| Return_ (output : JsValue)
| Throw_ (thrown : Thrown)
| Never_
| ThrowSync_ (thrown : Thrown)
| LoggerLog (level : string) (msg : string) (properties : JsValue)
    (k : Promise unit -> UserProg)
| FireEvent (event : JsValue) (k : Promise unit -> UserProg).

(** ** The client *)

Record TriggerOptions : Type := mkTriggerOptions {
  options_apiKey : option string;
  options_endpoint : option string;
  options_logLevel : option string;
  options_run : JsValue -> TriggerContext -> UserProg
}.

Record Trigger : Type := mkTrigger {
  trigger_id : string;
  trigger_name : string;
  trigger_on : JsValue;
  trigger_options : TriggerOptions
}.

Record HostConnection : Type := mkHostConnection {
  socket_endpoint : string;
  socket_authorization : string;
  socket_followRedirects : bool;
  connection_id : string
}.

Record ZodRPC : Type := mkZodRPC {
  rpc_connection : HostConnection
}.

Record Logger : Type := mkLogger {
  logger_name : string;
  logger_level : string
}.

(** The private fields of [TriggerClient]. *)
Record TriggerClient : Type := mkTriggerClient {
  trigger : Trigger;
  options : TriggerOptions;
  connection : option HostConnection;
  serverRPC : option ZodRPC;
  apiKey : string;
  endpoint : string;
  isConnected : bool;
  retryIntervalMs : N;
  logger : Logger
}.

(** [a ?? b] *)
Definition coalesce {A} (a b : option A) : option A :=
  match a with
  | Some x => Some x
  | None => b
  end.

(** [!apiKey]: [undefined] and the empty string are falsy. *)
Definition falsy (s : option string) : bool :=
  match s with
  | None => true
  | Some s => String.eqb s ""
  end.

(** The constructor; [process_env] is [process.env].  It throws ([inl]) or
    gives the new client. *)
Definition new_TriggerClient (trigger : Trigger) (options : TriggerOptions)
    (process_env : gmap string string) : Thrown + TriggerClient :=
  let apiKey := coalesce (options_apiKey options) (process_env !! "TRIGGER_API_KEY") in
  if falsy apiKey then
    inl (new_Error
           "Cannot connect to Trigger because of invalid API Key: Please include an API Key in the `apiKey` option or in the `TRIGGER_API_KEY` environment variable.")
  else
    inr {| trigger := trigger;
           options := options;
           connection := None;
           serverRPC := None;
           apiKey := default "" apiKey;
           endpoint := default "ws://trigger.dev/ws" (options_endpoint options);
           isConnected := false;
           retryIntervalMs := 3000;
           logger := mkLogger "trigger.dev" (default "info" (options_logLevel options)) |}.

(** ** The world *)

(** An argument of [console.log] or [console.error]. *)
Inductive ConsoleArg : Type :=
| ArgString (s : string)
| ArgData (data : TriggerWorkflow)
| ArgThrown (t : Thrown).

(** What the program does that can be seen from outside, in order.
    [RunCalled] and [RunSettled] mark the call of the user's run function
    and the settling of the promise it returned. *)
Inductive Effect : Type :=
| LoggerDebug (args : list string)
| ConsoleLog (args : list ConsoleArg)
| ConsoleError (args : list ConsoleArg)
| NewHostConnection (conn : HostConnection)
| OnCloseAttach
| ConnectionConnect
| RpcSend (methodName : MethodName) (request : Request)
| SetTimeout (ms : N)
| RunCalled (input : JsValue) (ctx : TriggerContext)
| RunSettled (outcome : Promise JsValue).

(** The client ([this]), what has happened so far, the number of calls that
    have reached the channel, and how the promises nobody awaits settled. *)
Record World : Type := mkWorld {
  client : TriggerClient;
  transcript : list Effect;
  rpc_calls : nat;
  floating : list (Promise unit)
}.

(** An async computation: from a world to the way its promise settles and
    the world it leaves. *)
Definition Async (A : Type) : Type := World -> Promise A * World.

(** [return a] *)
Definition ret {A} (a : A) : Async A := fun w => (Fulfilled a, w).

(** [throw e] *)
Definition throw {A} (e : Thrown) : Async A := fun w => (Rejected e, w).

(** A promise that has not settled when the observation ends. *)
Definition pending {A} : Async A := fun w => (Pending, w).

(** [await m], then [f]. *)
Definition bind {A B} (m : Async A) (f : A -> Async B) : Async B :=
  fun w =>
    match m w with
    | (Fulfilled a, w') => f a w'
    | (Rejected e, w') => (Rejected e, w')
    | (Pending, w') => (Pending, w')
    end.

(** [try { await m } catch (err) { h }], and [m.catch(h)]. *)
Definition catch {A} (m : Async A) (h : Thrown -> Async A) : Async A :=
  fun w =>
    match m w with
    | (Rejected e, w') => h e w'
    | settled => settled
    end.

(** A call whose promise is neither awaited nor returned: the caller goes
    on at once, and how the promise settles is kept in [floating].  The
    callee is run to its end first; the caller's own result does not depend
    on it. *)
Definition detach {A} (m : Async A) : Async unit :=
  fun w =>
    let (p, w') := m w in
    (Fulfilled tt,
     mkWorld (client w') (transcript w') (rpc_calls w') (floating w' ++ [forget p])).

#[global] Instance Async_ret : MRet Async := @ret.
#[global] Instance Async_bind : MBind Async := fun A B f m => bind m f.

(** One more effect in the transcript. *)
Definition emit (e : Effect) : Async unit :=
  fun w => (Fulfilled tt, mkWorld (client w) (transcript w ++ [e]) (rpc_calls w) (floating w)).

(** Reading and writing the client's fields. *)
Definition this : Async TriggerClient := fun w => (Fulfilled (client w), w).

Definition set_client (c : TriggerClient) : Async unit :=
  fun w => (Fulfilled tt, mkWorld c (transcript w) (rpc_calls w) (floating w)).

(** A synchronous step that may throw. *)
Definition of_result {A} (r : Thrown + A) : Async A :=
  match r with
  | inl e => throw e
  | inr a => ret a
  end.

(** [sleep(ms)] *)
Definition sleep (ms : N) : Async unit := emit (SetTimeout ms).

(** [await p] for a promise that settles as [p]. *)
Definition await {A} (p : Promise A) : Async A := fun w => (p, w).

(** Runs [m] and hands the way its promise settled to [k]. *)
Definition settled_then {A B} (m : Async A) (k : Promise A -> Async B) : Async B :=
  fun w => let (p, w') := m w in k p w'.

(** Assignments to [#connection], [#serverRPC] and [#isConnected]. *)
Definition set_connection (conn : option HostConnection) (c : TriggerClient) : TriggerClient :=
  mkTriggerClient (trigger c) (options c) conn (serverRPC c) (apiKey c) (endpoint c)
    (isConnected c) (retryIntervalMs c) (logger c).

Definition set_serverRPC (rpc : option ZodRPC) (c : TriggerClient) : TriggerClient :=
  mkTriggerClient (trigger c) (options c) (connection c) rpc (apiKey c) (endpoint c)
    (isConnected c) (retryIntervalMs c) (logger c).

Definition set_isConnected (b : bool) (c : TriggerClient) : TriggerClient :=
  mkTriggerClient (trigger c) (options c) (connection c) (serverRPC c) (apiKey c) (endpoint c)
    b (retryIntervalMs c) (logger c).

Definition modify_client (f : TriggerClient -> TriggerClient) : Async unit :=
  c ← this; set_client (f c).

(** [Math.round(a / b)] on naturals: halves round up. *)
Definition Math_round_div (a b : N) : N := ((2 * a + b) / (2 * b))%N.

(** [properties ?? {}] *)
Definition or_empty_object (properties : JsValue) : JsValue :=
  match properties with
  | JsUndefined => JsObject []
  | JsNull => JsObject []
  | _ => properties
  end.

(** [parseAnyError]: [error instanceof Error] or not. *)
Definition parseAnyError (error : Thrown) : ErrorDescription :=
  match error with
  | ThrownError e =>
      {| name := err_name e; message := err_message e; stackTrace := err_stack e |}
  | ThrownValue _ =>
      {| name := "UnknownError"; message := "An unknown error occurred"; stackTrace := None |}
  end.

(** The handler attached to [connection.onClose]. *)
Definition onClose (code : N) (reason : string) : Async unit :=
  emit (ConsoleError
          [ArgString ("Could not connect to trigger.dev (code " +:+ pretty code +:+ ")")]);;
  if String.eqb reason "" then mret tt else emit (ConsoleError [ArgString reason]).

(** Modelled from the spec: the ContextLogger class (./logger is not among
    the sources).  Of [logger.log(level, message, properties)] the spec says
    that it "issues an outbound send-log call tagged with the run
    identifier", which is what the callback of client.ts does; that it
    "never blocks user code on acknowledgement beyond the call's own
    retry/timeout handling"; and that "a logging failure must not abort the
    run".  So the logger hands its arguments to the callback it was
    constructed with, its promise settles when that one call has settled,
    and a failure of the callback stays with the logger: user code gets a
    promise that resolves. *)
Definition ContextLogger (callback : string -> string -> JsValue -> Async unit)
    (level msg : string) (properties : JsValue) : Async unit :=
  catch (callback level msg properties) (fun _ => mret tt).

Section Runtime.

(** The remote service: the reply to the [n]-th call on the channel. *)
Variable remote : nat -> Reply.
(** How many times the loop of [#send] may go round before the observation
    ends. *)
Variable fuel : nat.
(** How the promise of [connection.connect()] settles. *)
Variable socket : Promise unit.
(** The identifier [v4()] draws. *)
Variable v4 : string.
(** [version] and [name] of package.json. *)
Variable pkg_version : string.
Variable pkg_name : string.

(** [serverRPC.send(methodName, request)]: one call on the channel. *)
Definition serverRPC_send (methodName : MethodName) (request : Request) : Async Response :=
  fun w =>
    let w' := mkWorld (client w) (transcript w ++ [RpcSend methodName request])
                (S (rpc_calls w)) (floating w) in
    match remote (rpc_calls w) with
    | inl err => (Rejected err, w')
    | inr response => (Fulfilled response, w')
    end.

(** The body of [#send]'s [while (true)], [n] rounds of it. *)
Fixpoint send_loop (n : nat) (methodName : MethodName) (request : Request) : Async Response :=
  match n with
  | O => pending
  | S n' =>
      catch (serverRPC_send methodName request)
        (fun err =>
           if instanceof_TimeoutError err then
             c ← this;
             emit (ConsoleLog
                     [ArgString ("RPC call timed out, retrying in "
                                   +:+ pretty (Math_round_div (retryIntervalMs c) 1000)
                                   +:+ "s...")]);;
             emit (ConsoleLog [ArgThrown err]);;
             sleep (retryIntervalMs c);;
             send_loop n' methodName request
           else throw err)
  end.

(** [#send] *)
Definition send (methodName : MethodName) (request : Request) : Async Response :=
  c ← this;
  match serverRPC c with
  | None => throw (new_Error "serverRPC not initialized")
  | Some _ => send_loop fuel methodName request
  end.

(** [#initializeConnection] *)
Definition initializeConnection (instanceId : option string) : Async unit :=
  c ← this;
  let id := default v4 instanceId in
  emit (LoggerDebug ["Initializing connection..."; id]);;
  let headers := "Bearer " +:+ apiKey c in
  let conn := mkHostConnection (endpoint c) headers true id in
  emit (NewHostConnection conn);;
  emit OnCloseAttach;;
  emit ConnectionConnect;;
  await socket;;
  emit (LoggerDebug ["Connection initialized"; id]);;
  modify_client (set_connection (Some conn));;
  modify_client (set_isConnected true).

(** The invocation context's [logger] callback.  The request is built
    first: when [JSON.stringify] throws, no call is made. *)
Definition ctx_logger (data : TriggerWorkflow) (level msg : string) (properties : JsValue)
  : Async unit :=
  text ← of_result (JSON_stringify (or_empty_object properties));
  serverRPC_send SEND_LOG (SendLog (data_id data) level msg text);;
  mret tt.

(** The invocation context's [fireEvent]. *)
Definition ctx_fireEvent (data : TriggerWorkflow) (event : JsValue) : Async unit :=
  copy ← of_result (JSON_roundtrip event);
  serverRPC_send SEND_EVENT (SendEvent (data_id data) copy);;
  mret tt.

(** The call of the user's run function, with the context of [data]: the
    call throws ([Rejected] here), or it returns a promise, and then the
    result is how that promise settles. *)
Fixpoint run_program (data : TriggerWorkflow) (p : UserProg) : Async (Promise JsValue) :=
  match p with
  | Return_ output => mret (Fulfilled output)
  | Throw_ thrown => mret (Rejected thrown)
  | Never_ => mret Pending
  | ThrowSync_ thrown => throw thrown
  | LoggerLog level msg properties k =>
      settled_then (ContextLogger (ctx_logger data) level msg properties)
        (fun settled => run_program data (k settled))
  | FireEvent event k =>
      settled_then (ctx_fireEvent data event)
        (fun settled => run_program data (k settled))
  end.

(** [this.#trigger.options.run(data.trigger.input, ctx)], with its mark in
    the transcript. *)
Definition call_run (c : TriggerClient) (data : TriggerWorkflow) (ctx : TriggerContext)
  : Async (Promise JsValue) :=
  emit (RunCalled (data_trigger_input data) ctx);;
  run_program data
    (options_run (trigger_options (trigger c)) (data_trigger_input data) ctx).

(** What [.then] and [.catch] wait for: the promise of the run function
    settles, which leaves its mark in the transcript, or it never does. *)
Definition settling (promise : Promise JsValue) : Async JsValue :=
  match promise with
  | Pending => pending
  | _ => emit (RunSettled promise);; await promise
  end.

(** The chain the handler hangs on the promise of the run function,
    [.then(output => ...).catch(anyError => ...)].  In the [then] callback
    the request is built first: when [JSON.stringify] throws, no completion
    call is made, and [catch] gets what was thrown, as it gets what the
    completion call throws. *)
Definition then_catch (data : TriggerWorkflow) (promise : Promise JsValue) : Async Response :=
  catch
    (output ← settling promise;
     text ← of_result (JSON_stringify output);
     serverRPC_send COMPLETE_WORKFLOW_RUN
       (CompleteWorkflowRun (data_id data) text (meta_workflowId (data_meta data))))
    (fun anyError =>
       let error := parseAnyError anyError in
       serverRPC_send SEND_WORKFLOW_ERROR
         (SendWorkflowError (data_id data) (meta_workflowId (data_meta data)) error)).

(** The [TRIGGER_WORKFLOW] handler.  When the call of the run function
    throws, the handler's own promise rejects; otherwise the chain on the
    promise it returned is left to itself. *)
Definition TRIGGER_WORKFLOW (data : TriggerWorkflow) : Async unit :=
  emit (ConsoleLog [ArgString "TRIGGER_WORKFLOW"; ArgData data]);;
  c ← this;
  let ctx := {| ctx_id := data_id data;
                ctx_environment := meta_environment (data_meta data);
                ctx_apiKey := meta_apiKey (data_meta data);
                ctx_organizationId := meta_organizationId (data_meta data) |} in
  promise ← call_run c data ctx;
  detach (then_catch data promise).

(** [#initializeRPC] *)
Definition initializeRPC : Async unit :=
  c ← this;
  match connection c with
  | None => throw (new_Error "Cannot initialize RPC without a connection")
  | Some conn => modify_client (set_serverRPC (Some (mkZodRPC conn)))
  end.

(** [#initializeHost] *)
Definition initializeHost : Async unit :=
  c ← this;
  match connection c with
  | None => throw (new_Error "Cannot initialize host without a connection")
  | Some _ =>
      match serverRPC c with
      | None => throw (new_Error "Cannot initialize host without an RPC connection")
      | Some _ =>
          response ← send INITIALIZE_HOST
                       (InitializeHost (apiKey c) (trigger_id (trigger c))
                          (trigger_name (trigger c)) (trigger_on (trigger c))
                          pkg_version pkg_name);
          match response with
          | ResponseError msg => throw (new_Error msg)
          | _ => emit (ConsoleLog [ArgString "Host initialized"])
          end
      end
  end.

(** [listen]: only [#initializeConnection] is awaited. *)
Definition listen (instanceId : option string) : Async unit :=
  initializeConnection instanceId;;
  detach initializeRPC;;
  detach initializeHost.

(** What reaches a client after startup: the socket closes, or the remote
    service invokes the workflow. *)
Inductive Inbound : Type :=
| Closed (code : N) (reason : string)
| Invoke (data : TriggerWorkflow).

Definition deliver (i : Inbound) : Async unit :=
  match i with
  | Closed code reason => onClose code reason
  | Invoke data => TRIGGER_WORKFLOW data
  end.

Definition deliver_all (inbound : list Inbound) (w : World) : World :=
  fold_left (fun w i => snd (deliver i w)) inbound w.

End Runtime.

(** ** Reading a transcript *)

#[global] Instance MethodName_eq_dec : EqDecision MethodName.
Proof. solve_decision. Defined.

(** The effects that happened between [w] and the later world [w']. *)
Definition since (w w' : World) : list Effect :=
  drop (length (transcript w)) (transcript w').

(** The requests of the calls of [methodName], in order. *)
Definition calls_of (methodName : MethodName) (t : list Effect) : list Request :=
  omap (fun e => match e with
                 | RpcSend m request =>
                     if decide (m = methodName) then Some request else None
                 | _ => None
                 end) t.

(** The methods of the calls on the channel, in order. *)
Definition methods (t : list Effect) : list MethodName :=
  omap (fun e => match e with RpcSend m _ => Some m | _ => None end) t.

(** The waits, in order. *)
Definition sleeps (t : list Effect) : list N :=
  omap (fun e => match e with SetTimeout ms => Some ms | _ => None end) t.

(** The calls of the user's run function. *)
Definition run_calls (t : list Effect) : list (JsValue * TriggerContext) :=
  omap (fun e => match e with RunCalled input ctx => Some (input, ctx) | _ => None end) t.

(** How the promises of the user's run function settled. *)
Definition run_settlements (t : list Effect) : list (Promise JsValue) :=
  omap (fun e => match e with RunSettled p => Some p | _ => None end) t.

(** The lines written with [console.log], in order. *)
Definition console_logs (t : list Effect) : list (list ConsoleArg) :=
  omap (fun e => match e with ConsoleLog args => Some args | _ => None end) t.

(** A call on the channel, or a wait. *)
Definition on_the_wire (e : Effect) : bool :=
  match e with
  | RpcSend _ _ => true
  | SetTimeout _ => true
  | _ => false
  end.

(** The calls on the channel and the waits between them. *)
Definition wire (t : list Effect) : list Effect := List.filter on_the_wire t.

(** A call that reports the outcome of a run. *)
Definition is_outcome_call (e : Effect) : bool :=
  match e with
  | RpcSend COMPLETE_WORKFLOW_RUN _ => true
  | RpcSend SEND_WORKFLOW_ERROR _ => true
  | _ => false
  end.

(** The mark left when the run function's promise settles. *)
Definition is_run_settled (e : Effect) : bool :=
  match e with
  | RunSettled _ => true
  | _ => false
  end.

(** A call made through the invocation context. *)
Definition is_context_call (e : Effect) : bool :=
  match e with
  | RpcSend SEND_LOG _ => true
  | RpcSend SEND_EVENT _ => true
  | _ => false
  end.

(** The run identifier a request carries; the handshake carries none. *)
Definition request_id (request : Request) : option string :=
  match request with
  | InitializeHost _ _ _ _ _ _ => None
  | SendLog id _ _ _ => Some id
  | SendEvent id _ => Some id
  | CompleteWorkflowRun id _ _ => Some id
  | SendWorkflowError id _ _ => Some id
  end.

(** An effect that is no call on the channel, or a call for the run [id]. *)
Definition tagged (id : string) (e : Effect) : bool :=
  match e with
  | RpcSend _ request => bool_decide (request_id request = Some id)
  | _ => true
  end.

(** A reply that is a thrown [TimeoutError]. *)
Definition is_timeout (reply : Reply) : bool :=
  match reply with
  | inl err => instanceof_TimeoutError err
  | inr _ => false
  end.

(** How the promise of a call settles, given the reply. *)
Definition settles_as (reply : Reply) : Promise unit :=
  match reply with
  | inl err => Rejected err
  | inr _ => Fulfilled tt
  end.

(** [k] rounds of the retry loop on the wire: the call, then the wait. *)
Definition retry_rounds (k : nat) (methodName : MethodName) (request : Request) (ms : N)
  : list Effect :=
  mjoin (replicate k [RpcSend methodName request; SetTimeout ms]).

(** The two lines a timed-out attempt leaves on the console of a client
    whose retry interval is 3000 ms; an attempt that is answered leaves
    none. *)
Definition timeout_lines (reply : Reply) : list (list ConsoleArg) :=
  match reply with
  | inl err => [[ArgString "RPC call timed out, retrying in 3s..."]; [ArgThrown err]]
  | inr _ => []
  end.

(** A client after startup steps: the three fields that are assigned
    outside the constructor hold some values, the RPC channel is there. *)
Definition started (c : TriggerClient) (conn : option HostConnection) (rpc : ZodRPC)
    (flag : bool) : TriggerClient :=
  set_isConnected flag (set_serverRPC (Some rpc) (set_connection conn c)).

(** The world of a client nothing has happened to yet. *)
Definition initial_world (c : TriggerClient) : World := mkWorld c [] 0 [].

(** The same world, with another client in it. *)
Definition with_client (c : TriggerClient) (w : World) : World :=
  mkWorld c (transcript w) (rpc_calls w) (floating w).

(** The context the handler builds for [data]. *)
Definition context_of (data : TriggerWorkflow) : TriggerContext :=
  {| ctx_id := data_id data;
     ctx_environment := meta_environment (data_meta data);
     ctx_apiKey := meta_apiKey (data_meta data);
     ctx_organizationId := meta_organizationId (data_meta data) |}.

(** The invocations among what reached the client, with the argument and
    the context each one hands to the run function. *)
Definition invocations (inbound : list Inbound) : list (JsValue * TriggerContext) :=
  omap (fun i => match i with
                 | Invoke data => Some (data_trigger_input data, context_of data)
                 | Closed _ _ => None
                 end) inbound.

(** The connection [#initializeConnection] opens. *)
Definition connection_of (c : TriggerClient) (v4 : string) (instanceId : option string)
  : HostConnection :=
  mkHostConnection (endpoint c) ("Bearer " +:+ apiKey c) true (default v4 instanceId).

(** The request [#initializeHost] sends. *)
Definition handshake_of (c : TriggerClient) (pkg_version pkg_name : string) : Request :=
  InitializeHost (apiKey c) (trigger_id (trigger c)) (trigger_name (trigger c))
    (trigger_on (trigger c)) pkg_version pkg_name.

(** How the promise of [#initializeHost] settles, given the reply that ends
    the handshake: only a response of type "error" is a failure. *)
Definition handshake_outcome (reply : Reply) : Promise unit :=
  match reply with
  | inl err => Rejected err
  | inr (ResponseError msg) => Rejected (new_Error msg)
  | inr _ => Fulfilled tt
  end.

(** The world in which the handler calls the run function: its own log line
    is written. *)
Definition at_call (data : TriggerWorkflow) (w : World) : World :=
  mkWorld (client w)
    (transcript w ++ [ConsoleLog [ArgString "TRIGGER_WORKFLOW"; ArgData data]])
    (rpc_calls w) (floating w).

(** What a run function does through its context: calls of SEND_LOG and
    SEND_EVENT, each for the run of [data]. *)
Definition context_calls (data : TriggerWorkflow) (d : list Effect) : Prop :=
  forallb is_context_call d = true /\ forallb (tagged (data_id data)) d = true.

(** The ways an invocation ends, after the handler's own log line and the
    call of the run function.  [d] is what the run function did through its
    context and [n] the number of calls on the channel before the
    invocation, so the reply to the first call after those of the run
    function is [remote (n + length d)].  With each ending go the way the
    handler's own promise settles, the effects, the promises left floating
    and the number of calls made. *)
Inductive Invocation (remote : nat -> Reply) (data : TriggerWorkflow) (n : nat)
  : Promise unit -> list Effect -> list (Promise unit) -> nat -> Prop :=
| run_throws d thrown :
    context_calls data d ->
    Invocation remote data n (Rejected thrown) d [] (length d)
| run_never_settles d :
    context_calls data d ->
    Invocation remote data n (Fulfilled tt) d [Pending] (length d)
| run_resolves_reported d output text response :
    context_calls data d ->
    JSON_stringify output = inr text ->
    remote (n + length d) = inr response ->
    Invocation remote data n (Fulfilled tt)
      (d ++ [RunSettled (Fulfilled output);
             RpcSend COMPLETE_WORKFLOW_RUN
               (CompleteWorkflowRun (data_id data) text (meta_workflowId (data_meta data)))])
      [Fulfilled tt] (S (length d))
| run_resolves_report_fails d output text err :
    context_calls data d ->
    JSON_stringify output = inr text ->
    remote (n + length d) = inl err ->
    Invocation remote data n (Fulfilled tt)
      (d ++ [RunSettled (Fulfilled output);
             RpcSend COMPLETE_WORKFLOW_RUN
               (CompleteWorkflowRun (data_id data) text (meta_workflowId (data_meta data)));
             RpcSend SEND_WORKFLOW_ERROR
               (SendWorkflowError (data_id data) (meta_workflowId (data_meta data))
                  (parseAnyError err))])
      [settles_as (remote (S (n + length d)))] (S (S (length d)))
| run_resolves_unserializable d output err :
    context_calls data d ->
    JSON_stringify output = inl err ->
    Invocation remote data n (Fulfilled tt)
      (d ++ [RunSettled (Fulfilled output);
             RpcSend SEND_WORKFLOW_ERROR
               (SendWorkflowError (data_id data) (meta_workflowId (data_meta data))
                  (parseAnyError err))])
      [settles_as (remote (n + length d))] (S (length d))
| run_rejects d thrown :
    context_calls data d ->
    Invocation remote data n (Fulfilled tt)
      (d ++ [RunSettled (Rejected thrown);
             RpcSend SEND_WORKFLOW_ERROR
               (SendWorkflowError (data_id data) (meta_workflowId (data_meta data))
                  (parseAnyError thrown))])
      [settles_as (remote (n + length d))] (S (length d)).

(** ** Values and JSON texts *)

(** A value a JSON text can hold as it is: no [undefined], no [NaN], no
    infinity, no negative zero, no bigint, symbol or function, and no
    record with two properties of one name. *)
Fixpoint clean (v : JsValue) : bool :=
  match v with
  | JsNull => true
  | JsBool _ => true
  | JsNumber x => representable x
  | JsString _ => true
  | JsArray elems => forallb clean elems
  | JsObject props =>
      bool_decide (NoDup (map fst props)) && forallb (fun p => clean (snd p)) props
  | _ => false
  end.

(** The values [JSON.stringify] has no text for: [undefined], symbols and
    functions. *)
Definition no_text (v : JsValue) : bool :=
  match v with
  | JsUndefined => true
  | JsSymbol _ => true
  | JsFunction _ => true
  | _ => false
  end.

(** What is serialized for [v]: what its [toJSON] method returns, when it
    has one, and else [v] itself. *)
Definition toJSON_or_self (v : JsValue) : JsValue :=
  match v with
  | JsObject props => default v (toJSON props)
  | _ => v
  end.

(** [v.key], for a property of its own. *)
Definition get (v : JsValue) (key : string) : option JsValue :=
  match v with
  | JsObject props => snd <$> List.find (fun p => String.eqb (fst p) key) props
  | _ => None
  end.

(** ** What the specification says, where it says something else *)

(** The handler as the specification has it: both outcome calls go through
    the retry policy of [#send]. *)
Definition TRIGGER_WORKFLOW_retrying (remote : nat -> Reply) (fuel : nat)
    (data : TriggerWorkflow) : Async unit :=
  emit (ConsoleLog [ArgString "TRIGGER_WORKFLOW"; ArgData data]);;
  c ← this;
  promise ← call_run remote c data (context_of data);
  detach
    (catch
       (output ← settling promise;
        text ← of_result (JSON_stringify output);
        send_loop remote fuel COMPLETE_WORKFLOW_RUN
          (CompleteWorkflowRun (data_id data) text (meta_workflowId (data_meta data))))
       (fun anyError =>
          send_loop remote fuel SEND_WORKFLOW_ERROR
            (SendWorkflowError (data_id data) (meta_workflowId (data_meta data))
               (parseAnyError anyError)))).

(** The endpoint has a fallback in the process environment: some variable
    gives the endpoint of every client built without an explicit one. *)
Definition endpoint_falls_back_to_environment : Prop :=
  exists variable : string,
    forall (trigger : Trigger) (options : TriggerOptions)
      (process_env : gmap string string) (value : string) (c : TriggerClient),
      options_endpoint options = None ->
      process_env !! variable = Some value ->
      new_TriggerClient trigger options process_env = inr c ->
      endpoint c = value.

(** The failure description as the specification has it: a thrown value
    that exposes a name, a message and a trace keeps them, whatever it is an
    instance of. *)
Definition description_of_exposed (thrown : JsValue) : option ErrorDescription :=
  match get thrown "name", get thrown "message", get thrown "stack" with
  | Some (JsString n), Some (JsString m), Some (JsString s) =>
      Some {| name := n; message := m; stackTrace := Some s |}
  | _, _, _ => None
  end.

(** ** A scenario

    The example of the specification: workflow "wf1" named "demo", run
    "run1" with input [{x: 1}], and a run function that returns [{y: 2}]. *)

(** The doubles 1 and 2. *)
Definition number_1 : spec_float := S754_finite false 4503599627370496 (-52).
Definition number_2 : spec_float := S754_finite false 4503599627370496 (-51).

Definition demo_options (run : JsValue -> TriggerContext -> UserProg) : TriggerOptions :=
  {| options_apiKey := Some "trigger_dev_key";
     options_endpoint := None;
     options_logLevel := None;
     options_run := run |}.

Definition demo_trigger (run : JsValue -> TriggerContext -> UserProg) : Trigger :=
  {| trigger_id := "wf1";
     trigger_name := "demo";
     trigger_on := JsObject [("type", JsString "CUSTOM_EVENT")];
     trigger_options := demo_options run |}.

Definition demo_client (run : JsValue -> TriggerContext -> UserProg) : TriggerClient :=
  {| trigger := demo_trigger run;
     options := demo_options run;
     connection := None;
     serverRPC := None;
     apiKey := "trigger_dev_key";
     endpoint := "ws://trigger.dev/ws";
     isConnected := false;
     retryIntervalMs := 3000;
     logger := mkLogger "trigger.dev" "info" |}.

Definition demo_connection : HostConnection :=
  mkHostConnection "ws://trigger.dev/ws" "Bearer trigger_dev_key" true "instance-1".

Definition demo_data : TriggerWorkflow :=
  {| data_id := "run1";
     data_meta := mkTriggerMeta "development" "trigger_dev_key" "org1" "wf1";
     data_trigger_input := JsObject [("x", JsNumber number_1)] |}.

(** [async () => ({ y: 2 })] *)
Definition returns_y2 (input : JsValue) (ctx : TriggerContext) : UserProg :=
  Return_ (JsObject [("y", JsNumber number_2)]).

(** [async () => {}] *)
Definition returns_nothing (input : JsValue) (ctx : TriggerContext) : UserProg :=
  Return_ JsUndefined.

(** [async () => ({ count: 1n })] *)
Definition returns_bigint (input : JsValue) (ctx : TriggerContext) : UserProg :=
  Return_ (JsObject [("count", JsBigInt 1)]).

(** [async () => { throw new TypeError("boom") }] *)
Definition throws_TypeError (input : JsValue) (ctx : TriggerContext) : UserProg :=
  Throw_ (ThrownError (mkJsError (Class_Other "TypeError") "TypeError" "boom"
                         (Some "TypeError: boom at run"))).

(** [{ name: "X", message: "Y", stack: "X: Y at run" }], a plain object. *)
Definition error_like_object : JsValue :=
  JsObject [("name", JsString "X"); ("message", JsString "Y");
            ("stack", JsString "X: Y at run")].

(** [async () => { throw { name: "X", message: "Y", stack: "X: Y at run" } }] *)
Definition throws_plain_object (input : JsValue) (ctx : TriggerContext) : UserProg :=
  Throw_ (ThrownValue error_like_object).


(** [async (input, ctx) => { try { await ctx.logger.info("started") } catch {} return { y: 2 } }] *)
Definition logs_and_carries_on (input : JsValue) (ctx : TriggerContext) : UserProg :=
  LoggerLog "INFO" "started" JsUndefined
    (fun _ => Return_ (JsObject [("y", JsNumber number_2)])).

(** [async (input, ctx) => { await ctx.logger.info("started"); return { y: 2 } }] *)
Definition logs_then_returns (input : JsValue) (ctx : TriggerContext) : UserProg :=
  LoggerLog "INFO" "started" JsUndefined
    (fun settled =>
       match settled with
       | Fulfilled _ => Return_ (JsObject [("y", JsNumber number_2)])
       | Rejected err => Throw_ err
       | Pending => Never_
       end).

(** Two ways a call on the channel fails. *)
Definition timeout_error : Thrown :=
  ThrownError (mkJsError Class_TimeoutError "TimeoutError" "RPC call timed out" None).

Definition connection_lost : Thrown :=
  ThrownError (mkJsError Class_Error "Error" "Connection closed" None).

(** Remote services: one that answers every call with success, one whose
    first reply never comes in time, one whose first two do not, one whose
    first call fails for another reason, one that refuses the handshake. *)
Definition all_success : nat -> Reply := fun _ => inr ResponseSuccess.

Definition times_out_once : nat -> Reply :=
  fun n => match n with O => inl timeout_error | _ => inr ResponseSuccess end.

Definition times_out_twice : nat -> Reply :=
  fun n => match n with
           | O => inl timeout_error
           | S O => inl timeout_error
           | _ => inr ResponseSuccess
           end.

Definition fails_once : nat -> Reply :=
  fun n => match n with O => inl connection_lost | _ => inr ResponseSuccess end.

Definition refuses_handshake : nat -> Reply :=
  fun _ => inr (ResponseError "Invalid API key").

(** An environment with a credential, and with an endpoint that nothing
    reads. *)
Definition demo_environment : gmap string string :=
  {[ "TRIGGER_API_KEY" := "key_from_environment";
     "TRIGGER_ENDPOINT" := "ws://localhost:8889/ws" ]}.

Definition options_without_apiKey : TriggerOptions :=
  {| options_apiKey := None;
     options_endpoint := None;
     options_logLevel := None;
     options_run := returns_y2 |}.

(** The handshake of the scenario. *)
Definition handshake_request : Request :=
  InitializeHost "trigger_dev_key" "wf1" "demo"
    (JsObject [("type", JsString "CUSTOM_EVENT")]) "0.0.1" "@trigger.dev/sdk".

(** [{ name: "user.created", payload: { id: 1, admin: true, tags: ["a", "b"] } }] *)
Definition demo_event : JsValue :=
  JsObject [("name", JsString "user.created");
            ("payload",
             JsObject [("id", JsNumber number_1);
                       ("admin", JsBool true);
                       ("tags", JsArray [JsString "a"; JsString "b"])])].

Definition demo_event_text : Json :=
  JObject [("name", JString "user.created");
           ("payload",
            JObject [("id", JNumber number_1);
                     ("admin", JBool true);
                     ("tags", JArray [JString "a"; JString "b"])])].

(** [{ a: NaN, b: undefined, c: [undefined, -0], d: "kept" }] and what its
    round trip leaves: [{ a: null, c: [null, 0], d: "kept" }]. *)
Definition dirty_event : JsValue :=
  JsObject [("a", JsNumber S754_nan);
            ("b", JsUndefined);
            ("c", JsArray [JsUndefined; JsNumber (S754_zero true)]);
            ("d", JsString "kept")].

Definition dirty_event_copy : JsValue :=
  JsObject [("a", JsNull);
            ("c", JsArray [JsNull; JsNumber (S754_zero false)]);
            ("d", JsString "kept")].

(** ** The documented example: answering and moderating in parallel

    [handleCustomerQuestion] of
    docs/guides/ai-agents/respond-and-check-content.mdx, from the point
    where [batch.triggerByTaskAndWait] has returned the two runs. *)

(** A run as the batch returns it: [{ ok: true, output }] or
    [{ ok: false, error }]. *)
Inductive TaskRun : Type :=
| RunOk (output : JsValue)
| RunNotOk (error : JsValue).

(** [moderationRun.ok && moderationRun.output === true] *)
Definition flagged (moderationRun : TaskRun) : bool :=
  match moderationRun with
  | RunOk (JsBool true) => true
  | _ => false
  end.

Definition handleCustomerQuestion (responseRun moderationRun : TaskRun) : Thrown + JsValue :=
  if flagged moderationRun then
    inr (JsObject
           [("response",
             JsString "I apologize, but I cannot process this request as it contains inappropriate content.");
            ("wasInappropriate", JsBool true)])
  else
    match responseRun with
    | RunOk output =>
        inr (JsObject [("response", output); ("wasInappropriate", JsBool false)])
    | RunNotOk _ => inl (new_Error "Failed to process customer question")
    end.

(** * Proofs *)

(** ** Induction over values, and the round trip *)

Section JsValue_induction.
Variable P : JsValue -> Prop.
Hypothesis P_undefined : P JsUndefined.
Hypothesis P_null : P JsNull.
Hypothesis P_bool : forall b, P (JsBool b).
Hypothesis P_number : forall x, P (JsNumber x).
Hypothesis P_bigint : forall n, P (JsBigInt n).
Hypothesis P_string : forall s, P (JsString s).
Hypothesis P_symbol : forall description, P (JsSymbol description).
Hypothesis P_function : forall returns, P returns -> P (JsFunction returns).
Hypothesis P_array : forall elems, Forall P elems -> P (JsArray elems).
Hypothesis P_object : forall props, Forall (fun p => P (snd p)) props -> P (JsObject props).
Hypothesis P_circular : P JsCircular.

Fixpoint JsValue_nested_ind (v : JsValue) : P v :=
  match v with
  | JsUndefined => P_undefined
  | JsNull => P_null
  | JsBool b => P_bool b
  | JsNumber x => P_number x
  | JsBigInt n => P_bigint n
  | JsString s => P_string s
  | JsSymbol description => P_symbol description
  | JsFunction returns => P_function returns (JsValue_nested_ind returns)
  | JsArray elems =>
      P_array elems
        ((fix all (l : list JsValue) : Forall P l :=
            match l with
            | [] => @List.Forall_nil _ P
            | e :: l' => @List.Forall_cons _ P e l' (JsValue_nested_ind e) (all l')
            end) elems)
  | JsObject props =>
      P_object props
        ((fix all (l : list (string * JsValue)) : Forall (fun p => P (snd p)) l :=
            match l with
            | [] => @List.Forall_nil _ _
            | p :: l' => @List.Forall_cons _ (fun p => P (snd p)) p l' (JsValue_nested_ind (snd p)) (all l')
            end) props)
  | JsCircular => P_circular
  end.
End JsValue_induction.

(** The serializer, by its equations. *)
Lemma SerializeJSONProperty_local (e : JsValue) :
  match e with
  | JsObject props =>
      match (fix toJSON_result (l : list (string * JsValue))
               : option (Thrown + option Json) :=
               match l with
               | [] => None
               | p :: rest =>
                   if String.eqb (fst p) "toJSON" then
                     match snd p with
                     | JsFunction returns => Some (SerializeJSONValue returns)
                     | _ => None
                     end
                   else toJSON_result rest
               end) props with
      | Some result => result
      | None => SerializeJSONValue e
      end
  | _ => SerializeJSONValue e
  end = SerializeJSONProperty e.
Proof.
  destruct e as [| | | | | | | | |props|]; try reflexivity.
  unfold SerializeJSONProperty.
  assert (H : (fix toJSON_result (l : list (string * JsValue))
                 : option (Thrown + option Json) :=
                 match l with
                 | [] => None
                 | p :: rest =>
                     if String.eqb (fst p) "toJSON" then
                       match snd p with
                       | JsFunction returns => Some (SerializeJSONValue returns)
                       | _ => None
                       end
                     else toJSON_result rest
                 end) props = SerializeJSONValue <$> toJSON props).
  { induction props as [|p rest IH]; [done|]. cbn [toJSON].
    destruct (String.eqb (fst p) "toJSON"); [by destruct (snd p)|done]. }
  rewrite H. by destruct (toJSON props).
Qed.

Lemma SerializeJSONValue_array (elems : list JsValue) :
  SerializeJSONValue (JsArray elems)
  = text_of JArray (SerializeJSONArray (map SerializeJSONProperty elems)).
Proof.
  cbn [SerializeJSONValue]. do 2 f_equal. apply map_ext. intros e.
  apply SerializeJSONProperty_local.
Qed.

Lemma SerializeJSONValue_object (props : list (string * JsValue)) :
  SerializeJSONValue (JsObject props)
  = text_of JObject
      (SerializeJSONObject (map (fun p => (fst p, SerializeJSONProperty (snd p))) props)).
Proof.
  cbn [SerializeJSONValue]. do 2 f_equal. apply map_ext. intros p. f_equal.
  apply SerializeJSONProperty_local.
Qed.

Lemma toJSON_elem (props : list (string * JsValue)) (returns : JsValue) :
  toJSON props = Some returns -> exists p, p ∈ props /\ snd p = JsFunction returns.
Proof.
  induction props as [|p rest IH]; [done|]. cbn [toJSON].
  destruct (String.eqb (fst p) "toJSON").
  - destruct (snd p) eqn:E; try done. intros [= <-]. exists p. split; [left|done].
  - intros H. destruct (IH H) as (q & Hq & Hs). exists q. split; [by right|done].
Qed.

(** [JSON.stringify] gives [undefined] exactly for the values it has no
    text for, taken after their [toJSON]. *)
Lemma SerializeJSONValue_no_text (v : JsValue) :
  SerializeJSONValue v = inr None <-> no_text v = true.
Proof.
  destruct v as [| | | | | | | |elems|props|]; try done.
  - rewrite SerializeJSONValue_array. simpl. by destruct (SerializeJSONArray _).
  - rewrite SerializeJSONValue_object. simpl. by destruct (SerializeJSONObject _).
Qed.

Lemma JSON_stringify_no_text (v : JsValue) :
  JSON_stringify v = inr None <-> no_text (toJSON_or_self v) = true.
Proof.
  unfold JSON_stringify, SerializeJSONProperty, toJSON_or_self.
  destruct v as [| | | | | | | |elems|props|]; try apply SerializeJSONValue_no_text.
  destruct (toJSON props) as [returns|]; apply SerializeJSONValue_no_text.
Qed.

Lemma define_property_fresh (props : list (string * JsValue)) (k : string) (v : JsValue) :
  k ∉ map fst props -> define_property props k v = props ++ [(k, v)].
Proof.
  induction props as [|[k' v'] rest IH]; intros Hk; simpl; [done|].
  simpl in Hk. apply not_elem_of_cons in Hk as [Hne Hrest].
  destruct (String.eqb_spec k' k) as [->|_]; [done|].
  by rewrite IH.
Qed.

Lemma fold_define_property_distinct (members acc : list (string * JsValue)) :
  NoDup (map fst (acc ++ members)) ->
  fold_left (fun acc p => define_property acc (fst p) (snd p)) members acc = acc ++ members.
Proof.
  revert acc. induction members as [|[k v] rest IH]; intros acc Hnd; simpl.
  - by rewrite app_nil_r.
  - rewrite define_property_fresh.
    + rewrite IH; rewrite <- app_assoc; [done|]. exact Hnd.
    + rewrite map_app in Hnd. simpl in Hnd.
      apply NoDup_app in Hnd as (_ & Hdisj & _).
      intros Hin. apply (Hdisj k Hin). left.
Qed.

Lemma build_object_distinct (members : list (string * JsValue)) :
  NoDup (map fst members) -> build_object members = members.
Proof. intros Hnd. unfold build_object. by rewrite fold_define_property_distinct. Qed.

Lemma define_property_keys (props : list (string * JsValue)) (k : string) (v : JsValue) :
  map fst (define_property props k v)
  = if bool_decide (k ∈ map fst props) then map fst props else map fst props ++ [k].
Proof.
  induction props as [|[k' v'] rest IH]; simpl; [done|].
  destruct (String.eqb_spec k' k) as [->|Hne]; simpl.
  - rewrite bool_decide_eq_true_2; [done|]. left.
  - rewrite IH. destruct (bool_decide_reflect (k ∈ map fst rest)) as [Hin|Hnin].
    + rewrite bool_decide_eq_true_2; [done|]. by right.
    + rewrite bool_decide_eq_false_2; [done|].
      intros [Heq|Hin]%elem_of_cons; [by subst|done].
Qed.

Lemma define_property_distinct (props : list (string * JsValue)) (k : string) (v : JsValue) :
  NoDup (map fst props) -> NoDup (map fst (define_property props k v)).
Proof.
  intros Hnd. rewrite define_property_keys.
  destruct (bool_decide_reflect (k ∈ map fst props)) as [Hin|Hnin]; [done|].
  apply NoDup_app. split; [done|]. split; [|apply NoDup_singleton].
  intros x Hx Hk. apply list_elem_of_singleton in Hk. by subst.
Qed.

Lemma define_property_clean (props : list (string * JsValue)) (k : string) (v : JsValue) :
  forallb (fun p => clean (snd p)) props = true ->
  clean v = true ->
  forallb (fun p => clean (snd p)) (define_property props k v) = true.
Proof.
  intros Hprops Hv. induction props as [|[k' v'] rest IH]; simpl in *.
  - by rewrite Hv.
  - apply andb_prop in Hprops as [H1 H2].
    destruct (String.eqb k' k); simpl; [by rewrite Hv, H2|].
    by rewrite H1, IH.
Qed.

Lemma build_object_clean (members : list (string * JsValue)) :
  forallb (fun p => clean (snd p)) members = true ->
  clean (JsObject (build_object members)) = true.
Proof.
  intros Hm. unfold build_object.
  assert (Hgen : forall acc,
    NoDup (map fst acc) ->
    forallb (fun p => clean (snd p)) acc = true ->
    clean (JsObject
             (fold_left (fun acc p => define_property acc (fst p) (snd p)) members acc))
    = true).
  { induction members as [|[k v] rest IH]; intros acc Hnd Hacc; simpl in *.
    - rewrite Hacc, bool_decide_eq_true_2; done.
    - apply andb_prop in Hm as [Hv Hrest].
      apply IH; [done|by apply define_property_distinct|by apply define_property_clean]. }
  apply Hgen; [apply NoDup_nil_2|done].
Qed.

(** A clean object has no [toJSON] method: none of its properties is a
    function. *)
Lemma clean_no_toJSON (props : list (string * JsValue)) :
  forallb (fun p => clean (snd p)) props = true -> toJSON props = None.
Proof.
  induction props as [|p rest IH]; [done|]. simpl. intros H.
  apply andb_prop in H as [Hp Hrest].
  destruct (String.eqb (fst p) "toJSON"); [|by apply IH].
  by destruct (snd p).
Qed.

Lemma clean_property (v : JsValue) :
  clean v = true -> SerializeJSONProperty v = SerializeJSONValue v.
Proof.
  destruct v as [| | | | | | | | |props|]; try done. simpl. intros H.
  apply andb_prop in H as [_ H]. by rewrite (clean_no_toJSON props H).
Qed.

(** A clean value comes back from the round trip as it went in. *)
Lemma clean_roundtrip (v : JsValue) :
  clean v = true -> exists text, JSON_stringify v = inr (Some text) /\ JSON_parse text = v.
Proof.
  intros Hclean. unfold JSON_stringify. rewrite clean_property by done.
  revert Hclean.
  induction v as [| | b | x | n | s | description | returns IH | elems IH | props IH | ]
    using JsValue_nested_ind; intros Hclean; try discriminate.
  - by eexists.
  - by eexists.
  - destruct x as [[]| | |]; try discriminate; by eexists.
  - by eexists.
  - rewrite SerializeJSONValue_array.
    assert (H : exists items,
               SerializeJSONArray (map SerializeJSONProperty elems) = inr items
               /\ map JSON_parse items = elems).
    { simpl in Hclean. induction IH as [|e l He _ IHl]; [by exists []|].
      simpl in Hclean. apply andb_prop in Hclean as [H1 H2].
      destruct (He H1) as (text & Hs & Hp). destruct (IHl H2) as (items & Hi & Hm).
      exists (text :: items). cbn [map SerializeJSONArray].
      rewrite (clean_property e H1), Hs, Hi. simpl. by rewrite Hp, Hm. }
    destruct H as (items & -> & Hm). eexists. split; [reflexivity|]. simpl. by rewrite Hm.
  - rewrite SerializeJSONValue_object.
    simpl in Hclean. apply andb_prop in Hclean as [Hnd Hclean].
    apply bool_decide_eq_true in Hnd.
    assert (H : exists members,
               SerializeJSONObject
                 (map (fun p => (fst p, SerializeJSONProperty (snd p))) props) = inr members
               /\ map (fun m => (fst m, JSON_parse (snd m))) members = props).
    { clear Hnd. induction IH as [|[k v] l He _ IHl]; [by exists []|].
      simpl in Hclean, He. apply andb_prop in Hclean as [H1 H2].
      destruct (He H1) as (text & Hs & Hp). destruct (IHl H2) as (members & Hi & Hm).
      exists ((k, text) :: members). cbn [map SerializeJSONObject fst snd].
      rewrite (clean_property v H1), Hs, Hi. simpl. by rewrite Hp, Hm. }
    destruct H as (members & -> & Hm). eexists. split; [reflexivity|]. simpl.
    by rewrite Hm, build_object_distinct.
Qed.

Lemma base_payload_clean (v : JsValue) :
  base_payload v = true -> numbers_representable v = true -> clean v = true.
Proof.
  induction v as [| | b | x | n | s | description | returns IH | elems IH | props IH | ]
    using JsValue_nested_ind; simpl; intros Hbase Hnum; try done.
  - induction IH as [|e l He _ IHl]; [done|]. simpl in *.
    apply andb_prop in Hbase as [Hb1 Hb2]. apply andb_prop in Hnum as [Hn1 Hn2].
    by rewrite He, IHl.
  - apply andb_prop in Hbase as [Hnd Hbase]. rewrite Hnd. simpl. clear Hnd.
    induction IH as [|p l He _ IHl]; [done|]. simpl in *.
    apply andb_prop in Hbase as [Hb1 Hb2]. apply andb_prop in Hnum as [Hn1 Hn2].
    by rewrite He, IHl.
Qed.

Lemma JSON_roundtrip_base (event : JsValue) :
  base_payload event = true ->
  numbers_representable event = true ->
  exists text, JSON_stringify event = inr (Some text) /\ JSON_parse text = event.
Proof. intros Hbase Hnum. apply clean_roundtrip. by apply base_payload_clean. Qed.

(** What [JSON.parse] reads back from what [JSON.stringify] wrote is
    clean. *)
Lemma stringify_parse_clean (v : JsValue) :
  forall text, JSON_stringify v = inr (Some text) -> clean (JSON_parse text) = true.
Proof.
  unfold JSON_stringify.
  assert (H : (forall text, SerializeJSONValue v = inr (Some text) ->
                 clean (JSON_parse text) = true)
              /\ (forall text, SerializeJSONProperty v = inr (Some text) ->
                    clean (JSON_parse text) = true)
              /\ (forall returns, v = JsFunction returns ->
                    forall text, SerializeJSONValue returns = inr (Some text) ->
                      clean (JSON_parse text) = true)); [|apply H].
  induction v as [| | b | x | n | s | description | returns IH | elems IH | props IH | ]
    using JsValue_nested_ind;
    try (repeat split; simpl; intros; simplify_eq; done).
  - repeat split; simpl; intros; simplify_eq. by destruct x as [[]| | |].
    by destruct x as [[]| | |].
  - split; [done|]. split; [done|]. intros returns' [= <-]. exact (proj1 IH).
  - assert (Hvalue : forall text, SerializeJSONValue (JsArray elems) = inr (Some text) ->
                       clean (JSON_parse text) = true).
    { intros text. rewrite SerializeJSONValue_array.
      destruct (SerializeJSONArray (map SerializeJSONProperty elems)) as [err|items] eqn:E;
        [done|]. simpl. intros [= <-]. simpl.
      revert items E. induction IH as [|e l He _ IHl]; intros items E.
      - by injection E as <-.
      - cbn [map SerializeJSONArray] in E.
        destruct (SerializeJSONProperty e) as [err|element] eqn:Ee; [done|].
        destruct (SerializeJSONArray (map SerializeJSONProperty l)) as [err|items'];
          [done|]. injection E as <-. simpl. rewrite (IHl items' eq_refl), andb_true_r.
        destruct element as [j|]; [|done]. simpl. by apply He. }
    repeat split; try done.
  - assert (Hvalue : forall text, SerializeJSONValue (JsObject props) = inr (Some text) ->
                       clean (JSON_parse text) = true).
    { intros text. rewrite SerializeJSONValue_object.
      destruct (SerializeJSONObject _) as [err|members] eqn:E; [done|].
      simpl. intros [= <-]. simpl. apply build_object_clean.
      revert members E. induction IH as [|p l He _ IHl]; intros members E.
      - by injection E as <-.
      - cbn [map SerializeJSONObject fst snd] in E.
        destruct (SerializeJSONProperty (snd p)) as [err|property] eqn:Ep; [done|].
        destruct (SerializeJSONObject _) as [err|members']; [done|].
        injection E as <-. destruct property as [j|]; [|by apply IHl].
        cbn [map forallb fst snd]. rewrite (IHl members' eq_refl), andb_true_r.
        by apply He. }
    split; [done|]. split; [|done].
    intros text. unfold SerializeJSONProperty.
    destruct (toJSON props) as [returns|] eqn:Hto; [|apply Hvalue].
    destruct (toJSON_elem props returns Hto) as (p & Hp & Hs).
    rewrite List.Forall_forall in IH. apply list_elem_of_In in Hp.
    destruct (IH p Hp) as (_ & _ & Hf). by apply Hf.
Qed.

(** ** How computations touch the world *)

Ltac async :=
  unfold mbind, mret, Async_bind, Async_ret, bind, ret, throw, pending, catch,
    detach, emit, this, set_client, modify_client, await, settled_then, sleep,
    of_result in *;
  simpl in *.

Lemma since_app (w w' : World) (d : list Effect) :
  transcript w' = transcript w ++ d -> since w w' = d.
Proof. intros E. unfold since. rewrite E. apply drop_app_length. Qed.

Lemma omap_cons_eq {A B} (f : A -> option B) (x : A) (l : list A) :
  omap f (x :: l) = match f x with Some y => y :: omap f l | None => omap f l end.
Proof. reflexivity. Qed.

(** What calls made through the context leave for the projections. *)
Lemma context_calls_quiet (d : list Effect) :
  forallb is_context_call d = true ->
  calls_of INITIALIZE_HOST d = []
  /\ calls_of COMPLETE_WORKFLOW_RUN d = []
  /\ calls_of SEND_WORKFLOW_ERROR d = []
  /\ sleeps d = []
  /\ run_calls d = []
  /\ run_settlements d = []
  /\ List.filter is_outcome_call d = []
  /\ List.filter is_run_settled d = []
  /\ List.filter is_context_call d = d
  /\ length (methods d) = length d.
Proof.
  induction d as [|e d IH]; [done|]. simpl. intros H.
  apply andb_prop in H as [He Hd].
  destruct (IH Hd) as (H1 & H2 & H3 & H4 & H5 & H6 & H7 & H8 & H9 & H10).
  unfold calls_of, sleeps, run_calls, run_settlements, methods in *.
  destruct e as [| | | | | |m request| | |]; try discriminate.
  destruct m; try discriminate; simpl;
    by rewrite ?H1, ?H2, ?H3, ?H4, ?H5, ?H6, ?H7, ?H8, ?H9, ?H10.
Qed.

Section Frames.
Variable remote : nat -> Reply.

(** The two calls a run function can make. *)
Lemma ContextLogger_effects data level msg properties w :
  (ContextLogger (ctx_logger remote data) level msg properties w).1 = Fulfilled tt
  /\ ((ContextLogger (ctx_logger remote data) level msg properties w).2 = w
      \/ exists text,
          (ContextLogger (ctx_logger remote data) level msg properties w).2
          = mkWorld (client w)
              (transcript w ++ [RpcSend SEND_LOG (SendLog (data_id data) level msg text)])
              (S (rpc_calls w)) (floating w)).
Proof.
  unfold ContextLogger, ctx_logger, serverRPC_send. async.
  destruct (JSON_stringify (or_empty_object properties)) as [err|text]; simpl.
  - split; [done|]. by left.
  - destruct (remote (rpc_calls w)); simpl; (split; [done|]); right; by eexists.
Qed.

Lemma ctx_fireEvent_effects data event w :
  (ctx_fireEvent remote data event w).2 = w
  \/ exists copy,
      (ctx_fireEvent remote data event w).2
      = mkWorld (client w)
          (transcript w ++ [RpcSend SEND_EVENT (SendEvent (data_id data) copy)])
          (S (rpc_calls w)) (floating w).
Proof.
  unfold ctx_fireEvent, serverRPC_send. async.
  destruct (JSON_roundtrip event) as [err|copy]; simpl; [by left|].
  destruct (remote (rpc_calls w)); simpl; right; by eexists.
Qed.

Lemma run_program_effects data p w :
  client (run_program remote data p w).2 = client w
  /\ floating (run_program remote data p w).2 = floating w
  /\ (run_program remote data p w).1 <> Pending
  /\ exists d,
      transcript (run_program remote data p w).2 = transcript w ++ d
      /\ context_calls data d
      /\ rpc_calls (run_program remote data p w).2 = rpc_calls w + length d.
Proof.
  revert w.
  induction p as [output|thrown| |thrown|level msg properties k IH|event k IH]; intros w;
    try (simpl; async; repeat split; try done; exists []; rewrite app_nil_r;
         repeat split; simpl; auto with lia).
  - cbn [run_program]. unfold settled_then.
    destruct (ContextLogger_effects data level msg properties w) as [_ Hw].
    destruct (ContextLogger (ctx_logger remote data) level msg properties w) as [settled w1].
    simpl in Hw. destruct (IH settled w1) as (Hc & Hf & Hp & d & Ht & [Hd Hg] & Hn).
    destruct Hw as [->|[text ->]]; simpl in *.
    + repeat split; try done. by exists d.
    + repeat split; try done. eexists. rewrite Ht, <- app_assoc.
      split; [reflexivity|]. split; [split|]; simpl.
      * done.
      * by rewrite bool_decide_eq_true_2.
      * lia.
  - cbn [run_program]. unfold settled_then.
    pose proof (ctx_fireEvent_effects data event w) as Hw.
    destruct (ctx_fireEvent remote data event w) as [settled w1].
    simpl in Hw. destruct (IH settled w1) as (Hc & Hf & Hp & d & Ht & [Hd Hg] & Hn).
    destruct Hw as [->|[copy ->]]; simpl in *.
    + repeat split; try done. by exists d.
    + repeat split; try done. eexists. rewrite Ht, <- app_assoc.
      split; [reflexivity|]. split; [split|]; simpl.
      * done.
      * by rewrite bool_decide_eq_true_2.
      * lia.
Qed.

(** Everything one invocation does: the handler's log line, the call of the
    run function, and then one of the endings of [Invocation]. *)
Lemma TRIGGER_WORKFLOW_ending data w :
  client (TRIGGER_WORKFLOW remote data w).2 = client w
  /\ exists d fl k,
      transcript (TRIGGER_WORKFLOW remote data w).2
      = transcript w
        ++ [ConsoleLog [ArgString "TRIGGER_WORKFLOW"; ArgData data];
            RunCalled (data_trigger_input data) (context_of data)] ++ d
      /\ floating (TRIGGER_WORKFLOW remote data w).2 = floating w ++ fl
      /\ rpc_calls (TRIGGER_WORKFLOW remote data w).2 = rpc_calls w + k
      /\ Invocation remote data (rpc_calls w) (TRIGGER_WORKFLOW remote data w).1 d fl k.
Proof.
  unfold TRIGGER_WORKFLOW, then_catch, call_run, settling. async.
  match goal with |- context [run_program remote data ?p ?w1] =>
    destruct (run_program_effects data p w1) as (Hc & Hf & Hp & d & Ht & Hd & Hn);
    destruct (run_program remote data p w1) as [called w2] end.
  simpl in *. unfold serverRPC_send.
  destruct called as [[output|thrown|]|thrown|]; simpl; [| | | |done].
  - destruct (JSON_stringify output) as [err|text] eqn:Htext; simpl.
    + pose proof (run_resolves_unserializable remote data (rpc_calls w) d output err
                    Hd Htext) as Hinv.
      unfold settles_as in Hinv. rewrite <- Hn in Hinv.
      destruct (remote (rpc_calls w2)) as [e|r]; simpl; (split; [done|]);
        eexists _, _, _; (split; [|split; [|split; [|exact Hinv]]]); simpl;
        rewrite ?Ht, ?Hf, ?Hn, <- ?app_assoc; done || lia.
    + destruct (remote (rpc_calls w2)) as [err|response] eqn:Hreply; simpl;
        rewrite Hn in Hreply.
      * pose proof (run_resolves_report_fails remote data _ d output text err
                      Hd Htext Hreply) as Hinv.
        unfold settles_as in Hinv. rewrite <- Hn in Hinv.
        destruct (remote (S (rpc_calls w2))) as [e|r]; simpl; (split; [done|]);
          eexists _, _, _; (split; [|split; [|split; [|exact Hinv]]]); simpl;
          rewrite ?Ht, ?Hf, ?Hn, <- ?app_assoc; done || lia.
      * pose proof (run_resolves_reported remote data _ d output text response
                      Hd Htext Hreply) as Hinv.
        split; [done|].
        eexists _, _, _; (split; [|split; [|split; [|exact Hinv]]]); simpl;
          rewrite ?Ht, ?Hf, ?Hn, <- ?app_assoc; done || lia.
  - pose proof (run_rejects remote data (rpc_calls w) d thrown Hd) as Hinv.
    unfold settles_as in Hinv. rewrite <- Hn in Hinv.
    destruct (remote (rpc_calls w2)) as [e|r]; simpl; (split; [done|]);
      eexists _, _, _; (split; [|split; [|split; [|exact Hinv]]]); simpl;
      rewrite ?Ht, ?Hf, ?Hn, <- ?app_assoc; done || lia.
  - pose proof (run_never_settles remote data (rpc_calls w) d Hd) as Hinv.
    split; [done|].
    eexists _, _, _; (split; [|split; [|split; [|exact Hinv]]]); simpl;
      rewrite ?Ht, ?Hf, ?Hn, <- ?app_assoc; done || lia.
  - pose proof (run_throws remote data (rpc_calls w) d thrown Hd) as Hinv.
    split; [done|].
    eexists _, _, _; (split; [|split; [|split; [|exact Hinv]]]); simpl;
      rewrite ?Ht, ?Hf, ?Hn, <- ?app_assoc, ?app_nil_r; done || lia.
Qed.

Lemma TRIGGER_WORKFLOW_invocation data w :
  client (TRIGGER_WORKFLOW remote data w).2 = client w
  /\ exists r d fl k,
      (TRIGGER_WORKFLOW remote data w).1 = r
      /\ since w (TRIGGER_WORKFLOW remote data w).2
         = [ConsoleLog [ArgString "TRIGGER_WORKFLOW"; ArgData data];
            RunCalled (data_trigger_input data) (context_of data)] ++ d
      /\ floating (TRIGGER_WORKFLOW remote data w).2 = floating w ++ fl
      /\ rpc_calls (TRIGGER_WORKFLOW remote data w).2 = rpc_calls w + k
      /\ Invocation remote data (rpc_calls w) r d fl k.
Proof.
  destruct (TRIGGER_WORKFLOW_ending data w) as (Hc & d & fl & k & Ht & Hf & Hn & Hinv).
  split; [done|]. exists (TRIGGER_WORKFLOW remote data w).1, d, fl, k.
  by rewrite (since_app _ _ _ Ht).
Qed.

End Frames.

(** The handler, by its two halves. *)
Lemma TRIGGER_WORKFLOW_halves (remote : nat -> Reply) (data : TriggerWorkflow) (w : World) :
  TRIGGER_WORKFLOW remote data w
  = match call_run remote (client w) data (context_of data) (at_call data w) with
    | (Fulfilled promise, w2) => detach (then_catch remote data promise) w2
    | (Rejected thrown, w2) => (Rejected thrown, w2)
    | (Pending, w2) => (Pending, w2)
    end.
Proof. reflexivity. Qed.

(** The mark is the promise: what [run_settlements] reads off an
    invocation is how the promise the run function returned settled. *)
Lemma run_settlements_of_invocation
    (remote : nat -> Reply) (data : TriggerWorkflow) (w : World) :
  run_settlements (since w (TRIGGER_WORKFLOW remote data w).2)
  = match (call_run remote (client w) data (context_of data) (at_call data w)).1 with
    | Fulfilled (Fulfilled output) => [Fulfilled output]
    | Fulfilled (Rejected thrown) => [Rejected thrown]
    | _ => []
    end.
Proof.
  rewrite TRIGGER_WORKFLOW_halves.
  set (w1 := mkWorld (client w)
               ((transcript w ++ [ConsoleLog [ArgString "TRIGGER_WORKFLOW"; ArgData data]])
                ++ [RunCalled (data_trigger_input data) (context_of data)])
               (rpc_calls w) (floating w)).
  set (p := options_run (trigger_options (trigger (client w)))
              (data_trigger_input data) (context_of data)).
  change (call_run remote (client w) data (context_of data) (at_call data w))
    with (run_program remote data p w1).
  destruct (run_program_effects remote data p w1) as (_ & _ & _ & d & Ht & [Hd _] & _).
  destruct (context_calls_quiet d Hd) as (_ & _ & _ & _ & _ & Hq & _).
  destruct (run_program remote data p w1) as [[[output|thrown|]|thrown|] w2]; simpl in *;
    unfold detach, then_catch, settling, serverRPC_send; async;
    repeat (match goal with
            | |- context [JSON_stringify ?v] => destruct (JSON_stringify v)
            | |- context [remote ?n] => destruct (remote n)
            end; simpl);
    (erewrite since_app;
     [|simpl; rewrite ?Ht; subst w1; simpl; rewrite <- !app_assoc; reflexivity]);
    unfold run_settlements in *; rewrite ?omap_app, ?Hq; done.
Qed.

(** ** The retry loop *)

Section Retry.
Variable remote : nat -> Reply.

Lemma send_loop_timeouts (k n : nat) m r w :
  (forall i, i < k -> is_timeout (remote (rpc_calls w + i)) = true) ->
  exists w',
    send_loop remote (k + n) m r w = send_loop remote n m r w'
    /\ client w' = client w
    /\ floating w' = floating w
    /\ rpc_calls w' = rpc_calls w + k
    /\ exists d,
        transcript w' = transcript w ++ d
        /\ wire d = retry_rounds k m r (retryIntervalMs (client w)).
Proof.
  revert w. induction k as [|k IH]; intros w Hto.
  - exists w. rewrite Nat.add_0_r. repeat split; try done. exists []. by rewrite app_nil_r.
  - pose proof (Hto 0 ltac:(lia)) as H0. rewrite Nat.add_0_r in H0.
    set (w1 := mkWorld (client w)
                 (transcript w ++
                    [RpcSend m r;
                     ConsoleLog
                       [ArgString ("RPC call timed out, retrying in "
                                     +:+ pretty (Math_round_div (retryIntervalMs (client w)) 1000)
                                     +:+ "s...")];
                     ConsoleLog [ArgThrown (match remote (rpc_calls w) with
                                            | inl err => err
                                            | inr _ => ThrownValue JsUndefined
                                            end)];
                     SetTimeout (retryIntervalMs (client w))])
                 (S (rpc_calls w)) (floating w)).
    destruct (IH w1) as (w' & Hloop & Hc & Hf & Hn & d & Ht & Hw).
    { intros i Hi. simpl. replace (S (rpc_calls w + i)) with (rpc_calls w + S i) by lia.
      apply Hto. lia. }
    exists w'. split; [|repeat split].
    + rewrite <- Hloop. simpl. unfold serverRPC_send. async.
      unfold is_timeout in H0. subst w1.
      destruct (remote (rpc_calls w)) as [err|response]; [|done].
      rewrite H0. simpl. by rewrite <- !app_assoc.
    + by rewrite Hc.
    + by rewrite Hf.
    + rewrite Hn. simpl. lia.
    + eexists. split; [rewrite Ht; simpl; rewrite <- app_assoc; reflexivity|].
      unfold wire in *. rewrite List.filter_app. simpl. by rewrite Hw.
Qed.

Lemma send_started (fuel : nat) m r w :
  serverRPC (client w) <> None ->
  send remote fuel m r w = send_loop remote fuel m r w.
Proof. unfold send. async. by destruct (serverRPC (client w)). Qed.

End Retry.

(** C3: through [#send], an attempt that fails with a TimeoutError is
    followed by a wait of 3000 ms and another attempt, for as long as the
    timeouts last (after [k] timeouts the call is still waiting, never
    given up); an attempt that fails with any other error ends the call with
    that error and no further attempt, so a first attempt that fails so is
    the only one; an attempt that succeeds ends the call with its response.
    The client is any client the constructor built, with the channel set
    up. *)
Theorem send_retries_timeouts_only
    (remote : nat -> Reply) (trigger : Trigger) (options : TriggerOptions)
    (process_env : gmap string string) (c : TriggerClient)
    (conn : option HostConnection) (rpc : ZodRPC) (flag : bool)
    (t : list Effect) (calls : nat) (fl : list (Promise unit))
    (methodName : MethodName) (request : Request) (k : nat) :
  new_TriggerClient trigger options process_env = inr c ->
  (forall i, i < k -> is_timeout (remote (calls + i)) = true) ->
  let w := mkWorld (started c conn rpc flag) t calls fl in
  (forall fuel, fuel <= k ->
     (send remote fuel methodName request w).1 = Pending
     /\ wire (since w (send remote fuel methodName request w).2)
        = retry_rounds fuel methodName request 3000)
  /\ (forall fuel response, k < fuel ->
        remote (calls + k) = inr response ->
        (send remote fuel methodName request w).1 = Fulfilled response
        /\ wire (since w (send remote fuel methodName request w).2)
           = retry_rounds k methodName request 3000 ++ [RpcSend methodName request])
  /\ (forall fuel err, k < fuel ->
        remote (calls + k) = inl err ->
        instanceof_TimeoutError err = false ->
        (send remote fuel methodName request w).1 = Rejected err
        /\ wire (since w (send remote fuel methodName request w).2)
           = retry_rounds k methodName request 3000 ++ [RpcSend methodName request]).
Proof.
  intros Hnew Hto w.
  assert (Hms : retryIntervalMs (client w) = 3000%N).
  { unfold new_TriggerClient in Hnew. destruct (falsy _); [done|].
    injection Hnew as <-. done. }
  assert (Hrpc : serverRPC (client w) <> None) by done.
  split; [|split].
  - intros fuel Hfuel. rewrite send_started by done.
    destruct (send_loop_timeouts remote fuel 0 methodName request w)
      as (w' & Hloop & _ & _ & _ & d & Ht & Hw).
    { intros i Hi. apply Hto. lia. }
    rewrite Nat.add_0_r in Hloop. rewrite Hloop. simpl. split; [done|].
    rewrite (since_app _ _ d) by done. by rewrite Hw, Hms.
  - intros fuel response Hfuel Hreply. rewrite send_started by done.
    destruct (send_loop_timeouts remote k (fuel - k) methodName request w Hto)
      as (w' & Hloop & _ & _ & Hn & d & Ht & Hw).
    replace (k + (fuel - k)) with fuel in Hloop by lia. rewrite Hloop.
    destruct (fuel - k) as [|n] eqn:E; [lia|].
    simpl. unfold serverRPC_send. async. rewrite Hn. simpl in Hreply. rewrite Hreply.
    simpl. split; [done|].
    erewrite since_app; [|simpl; rewrite Ht, <- app_assoc; reflexivity].
    unfold wire in *. rewrite List.filter_app. simpl. by rewrite Hw, Hms.
  - intros fuel err Hfuel Hreply Hother. rewrite send_started by done.
    destruct (send_loop_timeouts remote k (fuel - k) methodName request w Hto)
      as (w' & Hloop & _ & _ & Hn & d & Ht & Hw).
    replace (k + (fuel - k)) with fuel in Hloop by lia. rewrite Hloop.
    destruct (fuel - k) as [|n] eqn:E; [lia|].
    simpl. unfold serverRPC_send. async. rewrite Hn. simpl in Hreply. rewrite Hreply.
    rewrite Hother. simpl. split; [done|].
    erewrite since_app; [|simpl; rewrite Ht, <- app_assoc; reflexivity].
    unfold wire in *. rewrite List.filter_app. simpl. by rewrite Hw, Hms.
Qed.

(** Two timeouts, then success: three attempts, 3000 ms apart. *)
Lemma send_retries_timeouts_only_witness :
  new_TriggerClient (demo_trigger returns_y2) (demo_options returns_y2) ∅
  = inr (demo_client returns_y2)
  /\ (forall i, i < 2 -> is_timeout (times_out_twice (0 + i)) = true)
  /\ (send times_out_twice 5 INITIALIZE_HOST handshake_request
        (mkWorld (started (demo_client returns_y2) (Some demo_connection)
                    (mkZodRPC demo_connection) true) [] 0 [])).1
     = Fulfilled ResponseSuccess
  /\ wire (since
             (mkWorld (started (demo_client returns_y2) (Some demo_connection)
                         (mkZodRPC demo_connection) true) [] 0 [])
             (send times_out_twice 5 INITIALIZE_HOST handshake_request
                (mkWorld (started (demo_client returns_y2) (Some demo_connection)
                            (mkZodRPC demo_connection) true) [] 0 [])).2)
     = retry_rounds 2 INITIALIZE_HOST handshake_request 3000
       ++ [RpcSend INITIALIZE_HOST handshake_request].
Proof.
  assert (Hnew : new_TriggerClient (demo_trigger returns_y2) (demo_options returns_y2) ∅
                 = inr (demo_client returns_y2)) by reflexivity.
  assert (Hto : forall i, i < 2 -> is_timeout (times_out_twice (0 + i)) = true).
  { intros [|[|i]] Hi; [reflexivity|reflexivity|lia]. }
  split; [exact Hnew|]. split; [exact Hto|].
  exact (proj1 (proj2 (send_retries_timeouts_only times_out_twice (demo_trigger returns_y2)
                         (demo_options returns_y2) ∅ (demo_client returns_y2)
                         (Some demo_connection) (mkZodRPC demo_connection) true [] 0 []
                         INITIALIZE_HOST handshake_request 2 Hnew Hto))
           5 ResponseSuccess ltac:(lia) eq_refl).
Defined.

(** ** Construction *)

(** C8, as amended: the credential is the explicit option or, without one,
    the environment variable TRIGGER_API_KEY; the endpoint is the explicit
    option or, without one, the fixed address ws://trigger.dev/ws, whatever
    the environment holds; with no credential in either place the
    constructor throws, and a client it does build has no connection yet. *)
Theorem constructor_resolves_configuration
    (trigger : Trigger) (options : TriggerOptions) (process_env : gmap string string) :
  (options_apiKey options = None ->
   process_env !! "TRIGGER_API_KEY" = None ->
   new_TriggerClient trigger options process_env
   = inl (new_Error
            "Cannot connect to Trigger because of invalid API Key: Please include an API Key in the `apiKey` option or in the `TRIGGER_API_KEY` environment variable."))
  /\ (forall key, key <> "" ->
        options_apiKey options = Some key
        \/ (options_apiKey options = None /\ process_env !! "TRIGGER_API_KEY" = Some key) ->
        exists c, new_TriggerClient trigger options process_env = inr c /\ apiKey c = key)
  /\ (forall c, new_TriggerClient trigger options process_env = inr c ->
        endpoint c = default "ws://trigger.dev/ws" (options_endpoint options)
        /\ connection c = None
        /\ isConnected c = false).
Proof.
  unfold new_TriggerClient. split; [|split].
  - by intros -> ->.
  - intros key Hkey Hfrom.
    assert (coalesce (options_apiKey options) (process_env !! "TRIGGER_API_KEY") = Some key)
      as ->.
    { destruct Hfrom as [->|[-> ->]]; done. }
    simpl. destruct (String.eqb_spec key "") as [->|_]; [done|].
    eexists. split; [reflexivity|done].
  - intros c. destruct (falsy _); [done|]. by intros [= <-].
Qed.

(** A credential from the environment, the default endpoint. *)
Lemma constructor_resolves_configuration_witness :
  exists c,
    new_TriggerClient (demo_trigger returns_y2) options_without_apiKey demo_environment
    = inr c
    /\ apiKey c = "key_from_environment"
    /\ endpoint c = "ws://trigger.dev/ws".
Proof.
  assert (Hkey : demo_environment !! "TRIGGER_API_KEY" = Some "key_from_environment")
    by reflexivity.
  destruct (proj1 (proj2 (constructor_resolves_configuration (demo_trigger returns_y2)
                            options_without_apiKey demo_environment))
              "key_from_environment" ltac:(discriminate) (or_intror (conj eq_refl Hkey)))
    as (c & Hc & Hk).
  exists c. split; [exact Hc|]. split; [exact Hk|].
  exact (proj1 (proj2 (proj2 (constructor_resolves_configuration (demo_trigger returns_y2)
                                options_without_apiKey demo_environment)) c Hc)).
Defined.

(** C8, as the claim states it, fails for the endpoint: no environment
    variable is read for it. *)
Lemma endpoint_has_no_environment_fallback : ~ endpoint_falls_back_to_environment.
Proof.
  intros [variable H].
  specialize (H (demo_trigger returns_y2) (demo_options returns_y2)
                {[variable := "ws://localhost:8889/ws"]} "ws://localhost:8889/ws"
                (demo_client returns_y2) eq_refl (lookup_singleton_eq _ _) eq_refl).
  discriminate H.
Qed.

(** ** Startup and what comes after *)

Section Lifetime.
Variable remote : nat -> Reply.

Lemma send_loop_client n m r w : client (send_loop remote n m r w).2 = client w.
Proof.
  revert w. induction n as [|n IH]; intros w; [done|].
  simpl. unfold serverRPC_send. async.
  destruct (remote (rpc_calls w)) as [err|response]; [|done].
  destruct (instanceof_TimeoutError err); [|done].
  simpl. by rewrite IH.
Qed.

Lemma onClose_effect code reason w :
  (onClose code reason w).1 = Fulfilled tt
  /\ client (onClose code reason w).2 = client w
  /\ rpc_calls (onClose code reason w).2 = rpc_calls w
  /\ floating (onClose code reason w).2 = floating w
  /\ since w (onClose code reason w).2
     = ConsoleError
         [ArgString ("Could not connect to trigger.dev (code " +:+ pretty code +:+ ")")]
       :: (if String.eqb reason "" then [] else [ConsoleError [ArgString reason]]).
Proof.
  unfold onClose. async.
  destruct (String.eqb reason ""); simpl; repeat split; try done;
    apply since_app; simpl; by rewrite <- ?app_assoc.
Qed.

Lemma deliver_client i w : client (deliver remote i w).2 = client w.
Proof.
  destruct i as [code reason|data]; simpl.
  - apply onClose_effect.
  - apply TRIGGER_WORKFLOW_invocation.
Qed.

Lemma deliver_all_client inbound w : client (deliver_all remote inbound w) = client w.
Proof.
  revert w. induction inbound as [|i inbound IH]; intros w; [done|].
  unfold deliver_all in *. simpl. rewrite IH. apply deliver_client.
Qed.

Lemma detach_fulfilled {A} (m : Async A) w : (detach m w).1 = Fulfilled tt.
Proof. unfold detach. by destruct (m w). Qed.

(** [listen] settles as [connection.connect()] does, whatever the remote
    service answers. *)
Lemma listen_settles_as_connect fuel (socket : Promise unit) v4 pkg_version pkg_name
    instanceId w :
  (listen remote fuel socket v4 pkg_version pkg_name instanceId w).1 = socket.
Proof.
  unfold listen, initializeConnection.
  unfold mbind, mret, Async_bind, Async_ret, bind, ret, emit, this, set_client,
    modify_client, await. simpl.
  destruct socket as [[]| |]; simpl; try done.
  apply detach_fulfilled.
Qed.

Lemma listen_connected fuel (socket : Promise unit) v4 pkg_version pkg_name instanceId w :
  (listen remote fuel socket v4 pkg_version pkg_name instanceId w).1 = Fulfilled tt ->
  isConnected (client (listen remote fuel socket v4 pkg_version pkg_name instanceId w).2)
  = true.
Proof.
  rewrite listen_settles_as_connect. intros ->.
  unfold listen, initializeConnection, initializeRPC, initializeHost, send. async.
  match goal with |- context [send_loop remote fuel ?m ?r ?w1] =>
    pose proof (send_loop_client fuel m r w1) as Hc;
    destruct (send_loop remote fuel m r w1) as [[response| |] w2] end;
    simpl in *; try (by rewrite Hc).
  destruct response; simpl; by rewrite Hc.
Qed.

End Lifetime.

(** C1 at its failing input: the connection opens, the handshake is
    answered with an error, and [listen] resolves all the same; the error
    ends up in the promise of [#initializeHost], which nobody awaits. *)
Theorem listen_resolves_though_handshake_refused :
  let w := initial_world (demo_client returns_y2) in
  let r := listen refuses_handshake 3 (Fulfilled tt) "instance-1" "0.0.1" "@trigger.dev/sdk"
             None w in
  r.1 = Fulfilled tt
  /\ calls_of INITIALIZE_HOST (since w r.2)
     = [InitializeHost "trigger_dev_key" "wf1" "demo"
          (JsObject [("type", JsString "CUSTOM_EVENT")]) "0.0.1" "@trigger.dev/sdk"]
  /\ floating r.2 = [Fulfilled tt; Rejected (new_Error "Invalid API key")].
Proof. vm_compute. done. Qed.

(** [listen] awaits the connection and nothing else: its promise settles
    as that of [connection.connect()], whatever the remote service answers
    to the handshake, and however long the handshake is retried. *)
Theorem listen_awaits_connection_only
    (remote : nat -> Reply) (fuel : nat) (socket : Promise unit)
    (v4 pkg_version pkg_name : string) (instanceId : option string) (w : World) :
  (listen remote fuel socket v4 pkg_version pkg_name instanceId w).1 = socket.
Proof. apply listen_settles_as_connect. Qed.

(** C10: once [listen] has resolved the flag is set; the close handler
    writes the code, and the reason when there is one, to the error log and
    changes nothing else; and whatever closes and invocations follow, the
    flag stays set. *)
Theorem isConnected_survives_close
    (remote : nat -> Reply) (fuel : nat) (socket : Promise unit)
    (v4 pkg_version pkg_name : string) (instanceId : option string) (w0 : World)
    (inbound : list Inbound) :
  (listen remote fuel socket v4 pkg_version pkg_name instanceId w0).1 = Fulfilled tt ->
  let w := (listen remote fuel socket v4 pkg_version pkg_name instanceId w0).2 in
  isConnected (client w) = true
  /\ (forall code reason w1,
        (onClose code reason w1).1 = Fulfilled tt
        /\ client (onClose code reason w1).2 = client w1
        /\ rpc_calls (onClose code reason w1).2 = rpc_calls w1
        /\ floating (onClose code reason w1).2 = floating w1
        /\ since w1 (onClose code reason w1).2
           = ConsoleError
               [ArgString ("Could not connect to trigger.dev (code " +:+ pretty code +:+ ")")]
             :: (if String.eqb reason "" then [] else [ConsoleError [ArgString reason]]))
  /\ isConnected (client (deliver_all remote inbound w)) = true.
Proof.
  intros Hlisten w. split; [|split].
  - by apply listen_connected.
  - intros code reason w1. apply onClose_effect.
  - rewrite deliver_all_client. by apply listen_connected.
Qed.

(** Startup, then a close without a reason, an invocation, and a close
    with one. *)
Lemma isConnected_survives_close_witness :
  (listen all_success 3 (Fulfilled tt) "instance-1" "0.0.1" "@trigger.dev/sdk" None
     (initial_world (demo_client returns_y2))).1 = Fulfilled tt
  /\ isConnected
       (client
          (deliver_all all_success
             [Closed 1006 ""; Invoke demo_data; Closed 1000 "going away"]
             (listen all_success 3 (Fulfilled tt) "instance-1" "0.0.1" "@trigger.dev/sdk" None
                (initial_world (demo_client returns_y2))).2))
     = true.
Proof.
  assert (Hlisten : (listen all_success 3 (Fulfilled tt) "instance-1" "0.0.1"
                       "@trigger.dev/sdk" None
                       (initial_world (demo_client returns_y2))).1 = Fulfilled tt)
    by reflexivity.
  split; [exact Hlisten|].
  exact (proj2 (proj2 (isConnected_survives_close all_success 3 (Fulfilled tt) "instance-1"
                         "0.0.1" "@trigger.dev/sdk" None
                         (initial_world (demo_client returns_y2))
                         [Closed 1006 ""; Invoke demo_data; Closed 1000 "going away"]
                         Hlisten))).
Defined.

(** ** One invocation *)

Lemma omap_head_quiet {A} (f : Effect -> option A) (data : TriggerWorkflow) (d : list Effect) :
  f (ConsoleLog [ArgString "TRIGGER_WORKFLOW"; ArgData data]) = None ->
  f (RunCalled (data_trigger_input data) (context_of data)) = None ->
  omap f ([ConsoleLog [ArgString "TRIGGER_WORKFLOW"; ArgData data];
           RunCalled (data_trigger_input data) (context_of data)] ++ d) = omap f d.
Proof. intros H1 H2. simpl. by rewrite H1, H2. Qed.

(** The projections of what an invocation left, ending by ending. *)
Ltac read_invocation Hinv :=
  destruct Hinv as [d' thrown' [Hd Hg]
                   |d' [Hd Hg]
                   |d' output' text' response' [Hd Hg] Htext Hreply
                   |d' output' text' err' [Hd Hg] Htext Hreply
                   |d' output' err' [Hd Hg] Htext
                   |d' thrown' [Hd Hg]];
  destruct (context_calls_quiet d' Hd)
    as (Hq1 & Hq2 & Hq3 & Hq4 & Hq5 & Hq6 & Hq7 & Hq8 & Hq9 & Hq10);
  unfold calls_of, sleeps, run_calls, run_settlements in *;
  rewrite ?List.filter_app, ?omap_app, ?forallb_app,
    ?Hq1, ?Hq2, ?Hq3, ?Hq4, ?Hq5, ?Hq6, ?Hq7, ?Hq8, ?Hq9, ?Hg;
  simpl.

(** C5, as amended: when the run function rejects, exactly one
    SEND_WORKFLOW_ERROR call is issued and no completion call.  For a
    thrown [Error] instance the description keeps its name, message and
    stack (as stackTrace); for any other thrown value, a string,
    [undefined] or an object that is no [Error], the description is
    UnknownError / An unknown error occurred. *)
Theorem rejected_run_reports_error
    (remote : nat -> Reply) (data : TriggerWorkflow) (w : World) (thrown : Thrown) :
  run_settlements (since w (TRIGGER_WORKFLOW remote data w).2) = [Rejected thrown] ->
  calls_of SEND_WORKFLOW_ERROR (since w (TRIGGER_WORKFLOW remote data w).2)
  = [SendWorkflowError (data_id data) (meta_workflowId (data_meta data))
       match thrown with
       | ThrownError e =>
           {| name := err_name e; message := err_message e; stackTrace := err_stack e |}
       | ThrownValue _ =>
           {| name := "UnknownError"; message := "An unknown error occurred";
              stackTrace := None |}
       end]
  /\ calls_of COMPLETE_WORKFLOW_RUN (since w (TRIGGER_WORKFLOW remote data w).2) = [].
Proof.
  destruct (TRIGGER_WORKFLOW_invocation remote data w)
    as (_ & r & d & fl & k & _ & -> & _ & _ & Hinv).
  unfold run_settlements, calls_of. rewrite !omap_head_quiet by done.
  read_invocation Hinv; intros Hrej; try discriminate.
  injection Hrej as ->. by destruct thrown.
Qed.

(** A run function that throws a TypeError. *)
Lemma rejected_run_reports_error_witness :
  run_settlements
    (since (initial_world (demo_client throws_TypeError))
       (TRIGGER_WORKFLOW all_success demo_data
          (initial_world (demo_client throws_TypeError))).2)
  = [Rejected (ThrownError (mkJsError (Class_Other "TypeError") "TypeError" "boom"
                              (Some "TypeError: boom at run")))]
  /\ calls_of SEND_WORKFLOW_ERROR
       (since (initial_world (demo_client throws_TypeError))
          (TRIGGER_WORKFLOW all_success demo_data
             (initial_world (demo_client throws_TypeError))).2)
     = [SendWorkflowError "run1" "wf1"
          {| name := "TypeError"; message := "boom";
             stackTrace := Some "TypeError: boom at run" |}]
  /\ calls_of COMPLETE_WORKFLOW_RUN
       (since (initial_world (demo_client throws_TypeError))
          (TRIGGER_WORKFLOW all_success demo_data
             (initial_world (demo_client throws_TypeError))).2)
     = [].
Proof.
  split; [reflexivity|].
  exact (rejected_run_reports_error all_success demo_data
           (initial_world (demo_client throws_TypeError)) _ eq_refl).
Defined.

(** C5, as the claim states it, fails: the run function rejects with a
    plain object that has a name, a message and a stack; these are not
    preserved, the run is reported as UnknownError. *)
Lemma thrown_object_reported_unknown :
  let w := initial_world (started (demo_client throws_plain_object) (Some demo_connection)
                            (mkZodRPC demo_connection) true) in
  let d := since w (TRIGGER_WORKFLOW all_success demo_data w).2 in
  run_settlements d = [Rejected (ThrownValue error_like_object)]
  /\ description_of_exposed error_like_object
     = Some {| name := "X"; message := "Y"; stackTrace := Some "X: Y at run" |}
  /\ calls_of SEND_WORKFLOW_ERROR d
     = [SendWorkflowError "run1" "wf1"
          {| name := "UnknownError"; message := "An unknown error occurred";
             stackTrace := None |}]
  /\ calls_of SEND_WORKFLOW_ERROR d
     <> [SendWorkflowError "run1" "wf1"
           {| name := "X"; message := "Y"; stackTrace := Some "X: Y at run" |}].
Proof. vm_compute. repeat split; congruence. Qed.

(** When the run function resolves with a value [JSON.stringify] can
    handle, exactly one COMPLETE_WORKFLOW_RUN call is issued, with the run
    identifier, the workflow identifier and the serialized output, and a
    SEND_WORKFLOW_ERROR call follows exactly when that call fails, and then
    it describes the call's error.  When [JSON.stringify] throws on the
    value, no completion call is issued at all, and the one
    SEND_WORKFLOW_ERROR call describes what [JSON.stringify] threw. *)
Theorem resolved_run_reports_completion
    (remote : nat -> Reply) (data : TriggerWorkflow) (w : World) (output : JsValue) :
  run_settlements (since w (TRIGGER_WORKFLOW remote data w).2) = [Fulfilled output] ->
  match JSON_stringify output with
  | inr serialized =>
      calls_of COMPLETE_WORKFLOW_RUN (since w (TRIGGER_WORKFLOW remote data w).2)
      = [CompleteWorkflowRun (data_id data) serialized (meta_workflowId (data_meta data))]
      /\ calls_of SEND_WORKFLOW_ERROR (since w (TRIGGER_WORKFLOW remote data w).2)
         = match remote (rpc_calls w
                         + length (List.filter is_context_call
                                     (since w (TRIGGER_WORKFLOW remote data w).2))) with
           | inr _ => []
           | inl err =>
               [SendWorkflowError (data_id data) (meta_workflowId (data_meta data))
                  (parseAnyError err)]
           end
  | inl thrown =>
      calls_of COMPLETE_WORKFLOW_RUN (since w (TRIGGER_WORKFLOW remote data w).2) = []
      /\ calls_of SEND_WORKFLOW_ERROR (since w (TRIGGER_WORKFLOW remote data w).2)
         = [SendWorkflowError (data_id data) (meta_workflowId (data_meta data))
              (parseAnyError thrown)]
  end.
Proof.
  destruct (TRIGGER_WORKFLOW_invocation remote data w)
    as (_ & r & d & fl & k & _ & -> & _ & _ & Hinv).
  unfold run_settlements, calls_of. rewrite !omap_head_quiet by done.
  rewrite List.filter_app. simpl.
  read_invocation Hinv; rewrite ?app_nil_r; intros Hres; try discriminate;
    injection Hres as ->; rewrite Htext, ?Hreply; done.
Qed.

(** A run function that resolves with a bigint inside its output: no
    completion call, and the run is reported as failed. *)
Lemma resolved_run_reports_completion_witness :
  run_settlements
    (since (initial_world (demo_client returns_bigint))
       (TRIGGER_WORKFLOW all_success demo_data (initial_world (demo_client returns_bigint))).2)
  = [Fulfilled (JsObject [("count", JsBigInt 1)])]
  /\ calls_of COMPLETE_WORKFLOW_RUN
       (since (initial_world (demo_client returns_bigint))
          (TRIGGER_WORKFLOW all_success demo_data
             (initial_world (demo_client returns_bigint))).2)
     = []
  /\ calls_of SEND_WORKFLOW_ERROR
       (since (initial_world (demo_client returns_bigint))
          (TRIGGER_WORKFLOW all_success demo_data
             (initial_world (demo_client returns_bigint))).2)
     = [SendWorkflowError "run1" "wf1" (parseAnyError TypeError_BigInt)].
Proof.
  split; [reflexivity|].
  exact (resolved_run_reports_completion all_success demo_data
           (initial_world (demo_client returns_bigint)) _ eq_refl).
Defined.

(** C4 at its failing input: the run function resolves with [{y: 2}], the
    completion call is issued once with that output, the channel lets it
    time out, and a SEND_WORKFLOW_ERROR call follows for the run that
    succeeded. *)
Theorem resolved_run_also_reported_failed :
  let w := initial_world (started (demo_client returns_y2) (Some demo_connection)
                            (mkZodRPC demo_connection) true) in
  let d := since w (TRIGGER_WORKFLOW times_out_once demo_data w).2 in
  run_settlements d = [Fulfilled (JsObject [("y", JsNumber number_2)])]
  /\ calls_of COMPLETE_WORKFLOW_RUN d
     = [CompleteWorkflowRun "run1" (Some (JObject [("y", JNumber number_2)])) "wf1"]
  /\ calls_of SEND_WORKFLOW_ERROR d
     = [SendWorkflowError "run1" "wf1"
          {| name := "TimeoutError"; message := "RPC call timed out"; stackTrace := None |}].
Proof. vm_compute. done. Qed.

(** Within an invocation every outcome call comes after the run function
    has settled: the transcript splits into a part with neither an outcome
    call nor the settling, and a rest that, when there is one, starts with
    the settling. *)
Lemma outcome_calls_follow_settlement
    (remote : nat -> Reply) (data : TriggerWorkflow) (w : World) :
  exists before after,
    since w (TRIGGER_WORKFLOW remote data w).2 = before ++ after
    /\ List.filter is_outcome_call before = []
    /\ List.filter is_run_settled before = []
    /\ (after = [] \/ exists settled rest, after = RunSettled settled :: rest).
Proof.
  destruct (TRIGGER_WORKFLOW_invocation remote data w)
    as (_ & r & d & fl & k & _ & -> & _ & _ & Hinv).
  destruct Hinv as [d' thrown' [Hd Hg]
                   |d' [Hd Hg]
                   |d' output' text' response' [Hd Hg] Htext Hreply
                   |d' output' text' err' [Hd Hg] Htext Hreply
                   |d' output' err' [Hd Hg] Htext
                   |d' thrown' [Hd Hg]];
    destruct (context_calls_quiet d' Hd) as (_ & _ & _ & _ & _ & _ & H1 & H2 & _).
  1,2: eexists _, []; rewrite app_nil_r; (split; [reflexivity|]);
    rewrite !List.filter_app, H1, H2; simpl; repeat split; try done; by left.
  all: eexists (_ ++ d'), _; rewrite <- app_assoc; (split; [reflexivity|]);
    rewrite !List.filter_app, H1, H2; simpl; repeat split; try done; right; by eexists _, _.
Qed.

(** C6 at its failing input: two outcome calls in one invocation. *)
Theorem two_outcome_calls_in_one_invocation :
  let w := initial_world (started (demo_client returns_y2) (Some demo_connection)
                            (mkZodRPC demo_connection) true) in
  List.filter is_outcome_call (since w (TRIGGER_WORKFLOW times_out_once demo_data w).2)
  = [RpcSend COMPLETE_WORKFLOW_RUN
       (CompleteWorkflowRun "run1" (Some (JObject [("y", JNumber number_2)])) "wf1");
     RpcSend SEND_WORKFLOW_ERROR
       (SendWorkflowError "run1" "wf1"
          {| name := "TimeoutError"; message := "RPC call timed out"; stackTrace := None |})].
Proof. vm_compute. done. Qed.

(** C2, as amended: each outcome call is put on the channel directly and
    at most once per invocation: there is never a second attempt and never
    a backoff wait, whatever the channel answers; and the run function is
    called exactly once per invocation, however reporting ends. *)
Theorem outcome_calls_attempted_once
    (remote : nat -> Reply) (data : TriggerWorkflow) (w : World) :
  length (calls_of COMPLETE_WORKFLOW_RUN (since w (TRIGGER_WORKFLOW remote data w).2)) <= 1
  /\ length (calls_of SEND_WORKFLOW_ERROR (since w (TRIGGER_WORKFLOW remote data w).2)) <= 1
  /\ sleeps (since w (TRIGGER_WORKFLOW remote data w).2) = []
  /\ run_calls (since w (TRIGGER_WORKFLOW remote data w).2)
     = [(data_trigger_input data, context_of data)].
Proof.
  destruct (TRIGGER_WORKFLOW_invocation remote data w)
    as (_ & r & d & fl & k & _ & -> & _ & _ & Hinv).
  unfold calls_of, sleeps, run_calls.
  rewrite !(omap_head_quiet _ data d) by done.
  cbn [app omap list_omap].
  read_invocation Hinv; repeat split; done || lia.
Qed.

(** C2, as the claim states it, fails: when the completion call times out
    once, the handler does not wait and try again, as the retry policy would
    (two attempts, 3000 ms apart, then done); it makes its one attempt and
    goes on to report the run as failed.  However long the retry policy is
    watched, what it puts on the wire is not what the handler does. *)
Lemma outcome_call_not_retried :
  let w := initial_world (started (demo_client returns_y2) (Some demo_connection)
                            (mkZodRPC demo_connection) true) in
  let completion :=
    RpcSend COMPLETE_WORKFLOW_RUN
      (CompleteWorkflowRun "run1" (Some (JObject [("y", JNumber number_2)])) "wf1") in
  wire (since w (TRIGGER_WORKFLOW times_out_once demo_data w).2)
  = [completion;
     RpcSend SEND_WORKFLOW_ERROR
       (SendWorkflowError "run1" "wf1"
          {| name := "TimeoutError"; message := "RPC call timed out"; stackTrace := None |})]
  /\ wire (since w (TRIGGER_WORKFLOW_retrying times_out_once 5 demo_data w).2)
     = [completion; SetTimeout 3000; completion]
  /\ forall fuel,
      wire (since w (TRIGGER_WORKFLOW times_out_once demo_data w).2)
      <> wire (since w (TRIGGER_WORKFLOW_retrying times_out_once fuel demo_data w).2).
Proof.
  split; [by vm_compute|]. split; [by vm_compute|].
  intros [|[|fuel]]; vm_compute; congruence.
Qed.

(** Every call an invocation puts on the channel, whether the run function
    makes it through its context or the handler makes it to report the
    outcome, carries the run identifier of that invocation; and an
    invocation never sends a handshake. *)
Theorem invocation_calls_carry_run_id
    (remote : nat -> Reply) (data : TriggerWorkflow) (w : World) :
  forallb (tagged (data_id data)) (since w (TRIGGER_WORKFLOW remote data w).2) = true
  /\ calls_of INITIALIZE_HOST (since w (TRIGGER_WORKFLOW remote data w).2) = [].
Proof.
  destruct (TRIGGER_WORKFLOW_invocation remote data w)
    as (_ & r & d & fl & k & _ & -> & _ & _ & Hinv).
  unfold calls_of. rewrite !(omap_head_quiet _ data d) by done. cbn [app forallb tagged].
  read_invocation Hinv; rewrite ?bool_decide_eq_true_2 by done; done.
Qed.



(** ** What the invocation context serializes *)

(** The logger callback builds its request first and then makes its one
    call.  When [JSON.stringify] gives a text for the properties, or
    [undefined], one SEND_LOG call goes out with it, tagged with the run
    identifier, and the callback's promise settles as that call does; when
    [JSON.stringify] throws, no call goes out and the callback's promise
    rejects with what was thrown.  Properties that are missing or [null] go
    out as the empty object. *)
Theorem logger_callback_serializes_then_sends
    (remote : nat -> Reply) (data : TriggerWorkflow) (level msg : string)
    (properties : JsValue) (w : World) :
  match JSON_stringify (or_empty_object properties) with
  | inr text =>
      since w (ctx_logger remote data level msg properties w).2
      = [RpcSend SEND_LOG (SendLog (data_id data) level msg text)]
      /\ (ctx_logger remote data level msg properties w).1 = settles_as (remote (rpc_calls w))
  | inl thrown =>
      since w (ctx_logger remote data level msg properties w).2 = []
      /\ (ctx_logger remote data level msg properties w).1 = Rejected thrown
  end
  /\ (properties = JsUndefined \/ properties = JsNull ->
      JSON_stringify (or_empty_object properties) = inr (Some (JObject []))).
Proof.
  split; [|by intros [->| ->]].
  unfold ctx_logger, serverRPC_send, settles_as. async.
  destruct (JSON_stringify (or_empty_object properties)) as [thrown|text]; simpl.
  - split; [|done]. apply since_app. by rewrite app_nil_r.
  - split; [apply since_app|]; by destruct (remote (rpc_calls w)).
Qed.

(** When the run function resolves, the completion call that carries
    [undefined] as output is issued exactly when the value, or what its
    [toJSON] method returns when it has one, is [undefined], a symbol or a
    function. *)
Theorem completion_output_undefined_iff
    (remote : nat -> Reply) (data : TriggerWorkflow) (w : World) (output : JsValue) :
  run_settlements (since w (TRIGGER_WORKFLOW remote data w).2) = [Fulfilled output] ->
  calls_of COMPLETE_WORKFLOW_RUN (since w (TRIGGER_WORKFLOW remote data w).2)
  = [CompleteWorkflowRun (data_id data) None (meta_workflowId (data_meta data))]
  <-> no_text (toJSON_or_self output) = true.
Proof.
  rewrite <- JSON_stringify_no_text.
  destruct (TRIGGER_WORKFLOW_invocation remote data w)
    as (_ & r & d & fl & k & _ & -> & _ & _ & Hinv).
  unfold run_settlements, calls_of. rewrite !omap_head_quiet by done.
  read_invocation Hinv; intros Hres; try discriminate; injection Hres as ->;
    rewrite Htext; split; intros H; congruence.
Qed.

(** A run function that returns nothing. *)
Lemma completion_output_undefined_iff_witness :
  run_settlements
    (since (initial_world (demo_client returns_nothing))
       (TRIGGER_WORKFLOW all_success demo_data
          (initial_world (demo_client returns_nothing))).2)
  = [Fulfilled JsUndefined]
  /\ calls_of COMPLETE_WORKFLOW_RUN
       (since (initial_world (demo_client returns_nothing))
          (TRIGGER_WORKFLOW all_success demo_data
             (initial_world (demo_client returns_nothing))).2)
     = [CompleteWorkflowRun "run1" None "wf1"].
Proof.
  assert (H : run_settlements
                (since (initial_world (demo_client returns_nothing))
                   (TRIGGER_WORKFLOW all_success demo_data
                      (initial_world (demo_client returns_nothing))).2)
              = [Fulfilled JsUndefined]) by reflexivity.
  split; [exact H|].
  exact (proj2 (completion_output_undefined_iff all_success demo_data
                  (initial_world (demo_client returns_nothing)) JsUndefined H) eq_refl).
Defined.

(** ** After startup *)

Section Inbound.
Variable remote : nat -> Reply.

Lemma deliver_effects i w :
  exists d,
    transcript (deliver remote i w).2 = transcript w ++ d
    /\ run_calls d = invocations [i]
    /\ sleeps d = []
    /\ calls_of INITIALIZE_HOST d = [].
Proof.
  destruct i as [code reason|data]; simpl.
  - unfold onClose. async. destruct (String.eqb reason ""); simpl;
      eexists; rewrite <- ?app_assoc; (split; [reflexivity|done]).
  - destruct (TRIGGER_WORKFLOW_ending remote data w) as (_ & d & fl & k & Ht & _ & _ & Hinv).
    remember (TRIGGER_WORKFLOW remote data w).1 as r eqn:Hr. clear Hr.
    eexists. split; [exact Ht|].
    unfold run_calls, sleeps, calls_of. cbn [app]. rewrite !omap_cons_eq. cbv beta iota.
    read_invocation Hinv; done.
Qed.

Lemma deliver_all_effects inbound w :
  exists d,
    transcript (deliver_all remote inbound w) = transcript w ++ d
    /\ run_calls d = invocations inbound
    /\ sleeps d = []
    /\ calls_of INITIALIZE_HOST d = [].
Proof.
  revert w. induction inbound as [|i inbound IH]; intros w.
  - exists []. by rewrite app_nil_r.
  - destruct (deliver_effects i w) as (d1 & Ht1 & Hr1 & Hs1 & Hh1).
    destruct (IH (deliver remote i w).2) as (d2 & Ht2 & Hr2 & Hs2 & Hh2).
    exists (d1 ++ d2). unfold deliver_all in *. simpl.
    rewrite Ht2, Ht1, <- app_assoc. split; [done|].
    unfold run_calls, sleeps, calls_of, invocations in *.
    rewrite !omap_app, Hr1, Hr2, Hs1, Hs2, Hh1, Hh2.
    by destruct i.
Qed.

End Inbound.

(** Whatever reaches the client, in whatever order: the run function is
    called exactly once for each invocation, in the order of arrival, with
    that invocation's input and context, and never for a close; no handler
    waits, sends a handshake, or changes a field of the client. *)
Theorem inbound_calls_run_once_each
    (remote : nat -> Reply) (inbound : list Inbound) (w : World) :
  run_calls (since w (deliver_all remote inbound w)) = invocations inbound
  /\ sleeps (since w (deliver_all remote inbound w)) = []
  /\ calls_of INITIALIZE_HOST (since w (deliver_all remote inbound w)) = []
  /\ client (deliver_all remote inbound w) = client w.
Proof.
  destruct (deliver_all_effects remote inbound w) as (d & Ht & Hr & Hs & Hh).
  rewrite (since_app _ _ _ Ht). repeat split; try done. apply deliver_all_client.
Qed.

(** ** Startup, step by step *)

Section Startup.
Variable remote : nat -> Reply.

Lemma send_loop_settles k fuel m r w :
  (forall i, i < k -> is_timeout (remote (rpc_calls w + i)) = true) ->
  k < fuel ->
  is_timeout (remote (rpc_calls w + k)) = false ->
  exists w',
    send_loop remote fuel m r w
    = (match remote (rpc_calls w + k) with
       | inl err => Rejected err
       | inr response => Fulfilled response
       end, w')
    /\ client w' = client w
    /\ floating w' = floating w
    /\ exists d,
        transcript w' = transcript w ++ d
        /\ wire d = retry_rounds k m r (retryIntervalMs (client w)) ++ [RpcSend m r].
Proof.
  intros Hto Hfuel Hlast.
  destruct (send_loop_timeouts remote k (fuel - k) m r w Hto)
    as (w1 & Hloop & Hc & Hf & Hn & d & Ht & Hw).
  replace (k + (fuel - k)) with fuel in Hloop by lia. rewrite Hloop.
  destruct (fuel - k) as [|n] eqn:E; [lia|].
  simpl. unfold serverRPC_send. async. rewrite Hn.
  unfold is_timeout in Hlast.
  destruct (remote (rpc_calls w + k)) as [err|response]; [rewrite Hlast|];
    simpl; eexists; (split; [reflexivity|]); simpl; (repeat split; try done);
    eexists; (split; [rewrite Ht, <- app_assoc; reflexivity|]);
    unfold wire in *; rewrite List.filter_app, Hw; done.
Qed.

Lemma listen_after_connect fuel v4 pkg_version pkg_name instanceId w :
  listen remote fuel (Fulfilled tt) v4 pkg_version pkg_name instanceId w
  = detach (initializeHost remote fuel pkg_version pkg_name)
      (mkWorld
         (started (client w) (Some (connection_of (client w) v4 instanceId))
            (mkZodRPC (connection_of (client w) v4 instanceId)) true)
         (transcript w
          ++ [LoggerDebug ["Initializing connection..."; default v4 instanceId];
              NewHostConnection (connection_of (client w) v4 instanceId);
              OnCloseAttach;
              ConnectionConnect;
              LoggerDebug ["Connection initialized"; default v4 instanceId]])
         (rpc_calls w)
         (floating w ++ [Fulfilled tt])).
Proof.
  unfold listen, initializeConnection, initializeRPC. async.
  by rewrite <- !app_assoc.
Qed.

End Startup.

(** When the connection does not open, [listen] ends as
    [connection.connect()] did and nothing else has happened: no field of
    the client is assigned, no RPC channel is built, no handshake is
    sent. *)
Theorem listen_stops_without_connection
    (remote : nat -> Reply) (fuel : nat) (socket : Promise unit)
    (v4 pkg_version pkg_name : string) (instanceId : option string) (w : World) :
  socket <> Fulfilled tt ->
  (listen remote fuel socket v4 pkg_version pkg_name instanceId w).1 = socket
  /\ client (listen remote fuel socket v4 pkg_version pkg_name instanceId w).2 = client w
  /\ floating (listen remote fuel socket v4 pkg_version pkg_name instanceId w).2 = floating w
  /\ since w (listen remote fuel socket v4 pkg_version pkg_name instanceId w).2
     = [LoggerDebug ["Initializing connection..."; default v4 instanceId];
        NewHostConnection (connection_of (client w) v4 instanceId);
        OnCloseAttach;
        ConnectionConnect].
Proof.
  intros Hsocket. unfold listen, initializeConnection. async.
  destruct socket as [[]| |]; [done| |]; simpl; (repeat split; try done);
    apply since_app; simpl; by rewrite <- !app_assoc.
Qed.

Lemma listen_stops_without_connection_witness :
  Rejected connection_lost <> Fulfilled tt
  /\ (listen all_success 3 (Rejected connection_lost) "instance-1" "0.0.1" "@trigger.dev/sdk"
        None (initial_world (demo_client returns_y2))).1 = Rejected connection_lost
  /\ isConnected
       (client (listen all_success 3 (Rejected connection_lost) "instance-1" "0.0.1"
                  "@trigger.dev/sdk" None (initial_world (demo_client returns_y2))).2)
     = false.
Proof.
  assert (H : @Rejected unit connection_lost <> Fulfilled tt) by discriminate.
  split; [exact H|].
  destruct (listen_stops_without_connection all_success 3 (Rejected connection_lost)
              "instance-1" "0.0.1" "@trigger.dev/sdk" None
              (initial_world (demo_client returns_y2)) H) as (H1 & H2 & _).
  split; [exact H1|]. rewrite H2. reflexivity.
Defined.

(** When the connection opens, the client ends up with that connection
    (the client's endpoint, "Bearer " and its credential as authorization,
    redirects followed, the given instance identifier or else a fresh
    one), an RPC channel over that very connection, and the flag set; the
    trigger, the options, the credential, the endpoint, the retry interval
    and the logger are as before, whatever the handshake brings. *)
Theorem listen_sets_up_client
    (remote : nat -> Reply) (fuel : nat) (v4 pkg_version pkg_name : string)
    (instanceId : option string) (w : World) :
  client (listen remote fuel (Fulfilled tt) v4 pkg_version pkg_name instanceId w).2
  = started (client w) (Some (connection_of (client w) v4 instanceId))
      (mkZodRPC (connection_of (client w) v4 instanceId)) true.
Proof.
  rewrite listen_after_connect. unfold detach, initializeHost, send. async.
  match goal with |- context [send_loop remote fuel ?m ?r ?w1] =>
    pose proof (send_loop_client remote fuel m r w1) as Hc;
    destruct (send_loop remote fuel m r w1) as [[response| |] w2] end;
    simpl in *; try (by rewrite Hc).
  destruct response; simpl; by rewrite Hc.
Qed.

(** The handshake as [listen] runs it: after [k] timeouts and a reply that
    is no timeout, the wire has seen the one handshake request [k + 1]
    times, each failed attempt followed by the wait, and nothing else; the
    two promises [listen] leaves behind are that of [#initializeRPC],
    resolved, and that of [#initializeHost], rejected when the last attempt
    threw or the response is of type "error", resolved otherwise, a missing
    response included. *)
Theorem listen_handshake
    (remote : nat -> Reply) (fuel : nat) (v4 pkg_version pkg_name : string)
    (instanceId : option string) (w : World) (k : nat) :
  (forall i, i < k -> is_timeout (remote (rpc_calls w + i)) = true) ->
  k < fuel ->
  is_timeout (remote (rpc_calls w + k)) = false ->
  wire (since w (listen remote fuel (Fulfilled tt) v4 pkg_version pkg_name instanceId w).2)
  = retry_rounds k INITIALIZE_HOST (handshake_of (client w) pkg_version pkg_name)
      (retryIntervalMs (client w))
    ++ [RpcSend INITIALIZE_HOST (handshake_of (client w) pkg_version pkg_name)]
  /\ floating (listen remote fuel (Fulfilled tt) v4 pkg_version pkg_name instanceId w).2
     = floating w ++ [Fulfilled tt; handshake_outcome (remote (rpc_calls w + k))].
Proof.
  intros Hto Hfuel Hlast. rewrite listen_after_connect.
  unfold detach, initializeHost, send. async.
  match goal with |- context [send_loop remote fuel ?m ?r ?w1] =>
    destruct (send_loop_settles remote k fuel m r w1 Hto Hfuel Hlast)
      as (w2 & Hloop & Hc & Hf & d & Ht & Hw) end.
  simpl in *. rewrite Hloop. unfold handshake_outcome, handshake_of in *.
  destruct (remote (rpc_calls w + k)) as [err|[|msg|v]]; simpl;
    rewrite Hf, <- ?app_assoc; (split; [|done]);
    (erewrite since_app; [|simpl; rewrite Ht, <- ?app_assoc; reflexivity]);
    unfold wire in *; rewrite !List.filter_app, Hw; simpl; by rewrite ?app_nil_r.
Qed.

Lemma listen_handshake_witness :
  (forall i, i < 2 -> is_timeout (times_out_twice (0 + i)) = true)
  /\ 2 < 5
  /\ is_timeout (times_out_twice (0 + 2)) = false
  /\ floating (listen times_out_twice 5 (Fulfilled tt) "instance-1" "0.0.1" "@trigger.dev/sdk"
                 None (initial_world (demo_client returns_y2))).2
     = [Fulfilled tt; Fulfilled tt].
Proof.
  assert (Hto : forall i, i < 2 -> is_timeout (times_out_twice (0 + i)) = true).
  { intros [|[|i]] Hi; [reflexivity|reflexivity|lia]. }
  assert (Hfuel : 2 < 5) by lia.
  assert (Hlast : is_timeout (times_out_twice (0 + 2)) = false) by reflexivity.
  split; [exact Hto|]. split; [exact Hfuel|]. split; [exact Hlast|].
  exact (proj2 (listen_handshake times_out_twice 5 "instance-1" "0.0.1" "@trigger.dev/sdk"
                  None (initial_world (demo_client returns_y2)) 2 Hto Hfuel Hlast)).
Defined.

(** ** The constructor's credential *)

(** A credential that is the empty string is as fatal as none, and an
    explicit empty [apiKey] is not replaced by the environment's: [??] only
    falls through on a value that is missing. *)
Theorem empty_credential_is_fatal
    (trigger : Trigger) (options : TriggerOptions) (process_env : gmap string string) :
  options_apiKey options = Some ""
  \/ (options_apiKey options = None /\ process_env !! "TRIGGER_API_KEY" = Some "") ->
  new_TriggerClient trigger options process_env
  = inl (new_Error
           "Cannot connect to Trigger because of invalid API Key: Please include an API Key in the `apiKey` option or in the `TRIGGER_API_KEY` environment variable.").
Proof.
  unfold new_TriggerClient. by intros [->|[-> ->]].
Qed.

Lemma empty_credential_is_fatal_witness :
  demo_environment !! "TRIGGER_API_KEY" = Some "key_from_environment"
  /\ exists err,
      new_TriggerClient (demo_trigger returns_y2)
        {| options_apiKey := Some ""; options_endpoint := None;
           options_logLevel := None; options_run := returns_y2 |}
        demo_environment
      = inl err.
Proof.
  split; [reflexivity|]. eexists.
  exact (empty_credential_is_fatal (demo_trigger returns_y2)
           {| options_apiKey := Some ""; options_endpoint := None;
              options_logLevel := None; options_run := returns_y2 |}
           demo_environment (or_introl eq_refl)).
Defined.

(** A client the constructor built holds a credential that is not empty,
    the one [options.apiKey ?? process.env.TRIGGER_API_KEY] gives; it keeps
    the trigger and the options it was given; its logger is named
    trigger.dev and has the level of the options or else info; it has no
    connection and no RPC channel yet, and its retry interval is 3000 ms. *)
Theorem constructed_client_fields
    (trigger : Trigger) (options : TriggerOptions) (process_env : gmap string string)
    (c : TriggerClient) :
  new_TriggerClient trigger options process_env = inr c ->
  apiKey c <> ""
  /\ coalesce (options_apiKey options) (process_env !! "TRIGGER_API_KEY") = Some (apiKey c)
  /\ c = {| trigger := trigger;
            options := options;
            connection := None;
            serverRPC := None;
            apiKey := apiKey c;
            endpoint := default "ws://trigger.dev/ws" (options_endpoint options);
            isConnected := false;
            retryIntervalMs := 3000;
            logger := mkLogger "trigger.dev" (default "info" (options_logLevel options)) |}.
Proof.
  unfold new_TriggerClient.
  destruct (coalesce (options_apiKey options) (process_env !! "TRIGGER_API_KEY"))
    as [key|]; simpl; [|done].
  destruct (String.eqb_spec key "") as [->|Hkey]; [done|].
  intros [= <-]. simpl. done.
Qed.

Lemma constructed_client_fields_witness :
  new_TriggerClient (demo_trigger returns_y2) options_without_apiKey demo_environment
  = inr (mkTriggerClient (demo_trigger returns_y2) options_without_apiKey None None
           "key_from_environment" "ws://trigger.dev/ws" false 3000
           (mkLogger "trigger.dev" "info"))
  /\ apiKey (mkTriggerClient (demo_trigger returns_y2) options_without_apiKey None None
               "key_from_environment" "ws://trigger.dev/ws" false 3000
               (mkLogger "trigger.dev" "info")) <> "".
Proof.
  assert (H : new_TriggerClient (demo_trigger returns_y2) options_without_apiKey
                demo_environment
              = inr (mkTriggerClient (demo_trigger returns_y2) options_without_apiKey
                       None None "key_from_environment" "ws://trigger.dev/ws" false 3000
                       (mkLogger "trigger.dev" "info"))) by reflexivity.
  split; [exact H|].
  exact (proj1 (constructed_client_fields (demo_trigger returns_y2) options_without_apiKey
                  demo_environment _ H)).
Defined.

(** ** The invocation context *)

(** C9, as amended: whenever [JSON.stringify] gives a JSON text for the
    event, [fireEvent] puts exactly one SEND_EVENT call on the channel,
    tagged with the run identifier and carrying the event read back from
    that text; when [JSON.stringify] gives [undefined] or throws, no call is
    made and the promise of [fireEvent] rejects.  For events made of
    strings, booleans, finite numbers other than negative zero, nested
    records and arrays there is such a text, and what is sent equals the
    original. *)
Theorem fireEvent_sends_one_copy
    (remote : nat -> Reply) (data : TriggerWorkflow) (event : JsValue) (w : World) :
  match JSON_stringify event with
  | inr (Some text) =>
      since w (ctx_fireEvent remote data event w).2
      = [RpcSend SEND_EVENT (SendEvent (data_id data) (JSON_parse text))]
  | _ =>
      since w (ctx_fireEvent remote data event w).2 = []
      /\ exists thrown, (ctx_fireEvent remote data event w).1 = Rejected thrown
  end
  /\ (base_payload event = true ->
      numbers_representable event = true ->
      exists text, JSON_stringify event = inr (Some text) /\ JSON_parse text = event).
Proof.
  split; [|apply JSON_roundtrip_base].
  unfold ctx_fireEvent, JSON_roundtrip, serverRPC_send. async.
  destruct (JSON_stringify event) as [thrown|[text|]]; simpl.
  - split; [|by eexists]. apply since_app. by rewrite app_nil_r.
  - apply since_app. by destruct (remote (rpc_calls w)).
  - split; [|by eexists]. apply since_app. by rewrite app_nil_r.
Qed.

(** An event of strings, a number, a boolean, a record and an array. *)
Lemma fireEvent_sends_one_copy_witness :
  JSON_stringify demo_event = inr (Some demo_event_text)
  /\ since (initial_world (demo_client returns_y2))
       (ctx_fireEvent all_success demo_data demo_event
          (initial_world (demo_client returns_y2))).2
     = [RpcSend SEND_EVENT (SendEvent "run1" (JSON_parse demo_event_text))]
  /\ JSON_parse demo_event_text = demo_event.
Proof.
  assert (Htext : JSON_stringify demo_event = inr (Some demo_event_text)) by reflexivity.
  split; [exact Htext|].
  split; [|reflexivity].
  exact (proj1 (fireEvent_sends_one_copy all_success demo_data demo_event
                  (initial_world (demo_client returns_y2)))).
Defined.

(** C9, as the claim states it, fails twice: a record holding [NaN] is a
    value of the base payload types and is delivered with [null] in its
    place; and for the event [undefined] no SEND_EVENT call is issued at
    all. *)
Lemma fireEvent_alters_or_drops :
  let w := initial_world (started (demo_client returns_y2) (Some demo_connection)
                            (mkZodRPC demo_connection) true) in
  let event := JsObject [("x", JsNumber S754_nan)] in
  base_payload event = true
  /\ since w (ctx_fireEvent all_success demo_data event w).2
     = [RpcSend SEND_EVENT (SendEvent "run1" (JsObject [("x", JsNull)]))]
  /\ JsObject [("x", JsNull)] <> event
  /\ since w (ctx_fireEvent all_success demo_data JsUndefined w).2 = [].
Proof. vm_compute. repeat split; congruence. Qed.

(** Whatever event is fired, the copy that goes out is clean: it holds no
    [undefined], no [NaN], no infinity and no negative zero.  And the copy
    is stable: fired again, from any state and whatever the remote service
    does, it goes out unchanged. *)
Theorem fireEvent_copy_is_clean_and_stable
    (remote : nat -> Reply) (data : TriggerWorkflow) (event copy : JsValue) (w : World) :
  calls_of SEND_EVENT (since w (ctx_fireEvent remote data event w).2)
  = [SendEvent (data_id data) copy] ->
  clean copy = true
  /\ forall (remote' : nat -> Reply) (data' : TriggerWorkflow) (w' : World),
      since w' (ctx_fireEvent remote' data' copy w').2
      = [RpcSend SEND_EVENT (SendEvent (data_id data') copy)].
Proof.
  unfold ctx_fireEvent at 1. unfold JSON_roundtrip, serverRPC_send. async.
  destruct (JSON_stringify event) as [thrown|[text|]] eqn:Htext; simpl.
  - rewrite (since_app w w []) by (by rewrite app_nil_r). done.
  - erewrite since_app; [|by destruct (remote (rpc_calls w))].
    simpl. intros [= <-].
    pose proof (stringify_parse_clean event text Htext) as Hclean.
    split; [done|]. intros remote' data' w'.
    destruct (clean_roundtrip _ Hclean) as (text' & Hs & Hp).
    unfold ctx_fireEvent, JSON_roundtrip, serverRPC_send. rewrite Hs. async. rewrite Hp.
    apply since_app. by destruct (remote' (rpc_calls w')).
  - rewrite (since_app w w []) by (by rewrite app_nil_r). done.
Qed.

Lemma fireEvent_copy_is_clean_and_stable_witness :
  calls_of SEND_EVENT
    (since (initial_world (demo_client returns_y2))
       (ctx_fireEvent all_success demo_data dirty_event
          (initial_world (demo_client returns_y2))).2)
  = [SendEvent "run1" dirty_event_copy]
  /\ clean dirty_event_copy = true.
Proof.
  assert (H : calls_of SEND_EVENT
                (since (initial_world (demo_client returns_y2))
                   (ctx_fireEvent all_success demo_data dirty_event
                      (initial_world (demo_client returns_y2))).2)
              = [SendEvent "run1" dirty_event_copy]) by reflexivity.
  split; [exact H|].
  exact (proj1 (fireEvent_copy_is_clean_and_stable all_success demo_data dirty_event
                  dirty_event_copy (initial_world (demo_client returns_y2)) H)).
Defined.

(** ** Logging and the run *)

Section Logging.
Variables remote remote' : nat -> Reply.
Variable data : TriggerWorkflow.

(** The logger call does not look at the reply. *)
Lemma ContextLogger_blind level msg properties w :
  ContextLogger (ctx_logger remote' data) level msg properties w
  = ContextLogger (ctx_logger remote data) level msg properties w.
Proof.
  unfold ContextLogger, ctx_logger, serverRPC_send. async.
  destruct (JSON_stringify (or_empty_object properties)); simpl; [done|].
  by destruct (remote' (rpc_calls w)), (remote (rpc_calls w)).
Qed.

(** A run function goes the same way under two remote services that differ
    only in their replies to its SEND_LOG calls. *)
Lemma run_program_logging_ext p w d :
  transcript (run_program remote data p w).2 = transcript w ++ d ->
  (forall i, methods d !! i <> Some SEND_LOG ->
             remote' (rpc_calls w + i) = remote (rpc_calls w + i)) ->
  run_program remote' data p w = run_program remote data p w.
Proof.
  revert w d.
  induction p as [output|thrown| |thrown|level msg properties k IH|event k IH];
    intros w d Ht Hext; try done.
  - cbn [run_program] in *. unfold settled_then in *.
    rewrite ContextLogger_blind.
    destruct (ContextLogger_effects remote data level msg properties w) as [_ Hw].
    destruct (ContextLogger (ctx_logger remote data) level msg properties w) as [settled w1].
    simpl in Hw.
    destruct (run_program_effects remote data (k settled) w1)
      as (_ & _ & _ & d1 & Ht1 & _ & _).
    apply (IH settled w1 d1 Ht1). intros i Hi.
    destruct Hw as [->|[text ->]]; simpl in *.
    + rewrite Ht1 in Ht. apply app_inv_head in Ht. subst d1. by apply Hext.
    + rewrite Ht1 in Ht. simpl in Ht. rewrite <- app_assoc in Ht.
      apply app_inv_head in Ht. subst d.
      replace (S (rpc_calls w + i)) with (rpc_calls w + S i) by lia. by apply Hext.
  - cbn [run_program] in *. unfold settled_then in *.
    assert (Hsame : ctx_fireEvent remote' data event w = ctx_fireEvent remote data event w).
    { unfold ctx_fireEvent, serverRPC_send in *. async.
      destruct (JSON_roundtrip event) as [thrown|copy]; simpl in *; [done|].
      assert (Hr : remote' (rpc_calls w) = remote (rpc_calls w)); [|by rewrite Hr].
      rewrite <- (Nat.add_0_r (rpc_calls w)). apply Hext.
      destruct (remote (rpc_calls w)); simpl in Ht;
        (match type of Ht with
         | transcript (run_program _ _ ?p ?w1).2 = _ =>
             destruct (run_program_effects remote data p w1)
               as (_ & _ & _ & d1 & Ht1 & _ & _) end);
        rewrite Ht1 in Ht; simpl in Ht; rewrite <- app_assoc in Ht;
        apply app_inv_head in Ht; subst d; done. }
    rewrite Hsame.
    pose proof (ctx_fireEvent_effects remote data event w) as Hw.
    destruct (ctx_fireEvent remote data event w) as [settled w1].
    simpl in Hw.
    destruct (run_program_effects remote data (k settled) w1)
      as (_ & _ & _ & d1 & Ht1 & _ & _).
    apply (IH settled w1 d1 Ht1). intros i Hi.
    destruct Hw as [->|[copy ->]]; simpl in *.
    + rewrite Ht1 in Ht. apply app_inv_head in Ht. subst d1. by apply Hext.
    + rewrite Ht1 in Ht. simpl in Ht. rewrite <- app_assoc in Ht.
      apply app_inv_head in Ht. subst d.
      replace (S (rpc_calls w + i)) with (rpc_calls w + S i) by lia. by apply Hext.
Qed.

(** The chain on the promise of the run function sees the remote service
    only from the call it is at, and it makes no SEND_LOG call. *)
Lemma then_catch_ext promise w :
  (forall i, rpc_calls w <= i -> remote' i = remote i) ->
  then_catch remote' data promise w = then_catch remote data promise w.
Proof.
  intros Hext. unfold then_catch, settling, serverRPC_send. async.
  destruct promise as [output|thrown|]; simpl; [| |done].
  - destruct (JSON_stringify output); simpl.
    + by rewrite (Hext (rpc_calls w)) by lia.
    + rewrite (Hext (rpc_calls w)) by lia.
      destruct (remote (rpc_calls w)); simpl; [|done].
      by rewrite (Hext (S (rpc_calls w))) by lia.
  - by rewrite (Hext (rpc_calls w)) by lia.
Qed.

Lemma then_catch_methods promise w :
  exists tail,
    transcript (then_catch remote data promise w).2 = transcript w ++ tail
    /\ forall i, methods tail !! i <> Some SEND_LOG.
Proof.
  unfold then_catch, settling, serverRPC_send. async.
  destruct promise as [output|thrown|]; simpl.
  - destruct (JSON_stringify output); simpl.
    + destruct (remote (rpc_calls w)); simpl; eexists; rewrite <- ?app_assoc;
        (split; [reflexivity|]); by intros [|[|i]].
    + destruct (remote (rpc_calls w)); simpl;
        [destruct (remote (S (rpc_calls w))); simpl|];
        eexists; rewrite <- ?app_assoc; (split; [reflexivity|]); by intros [|[|[|i]]].
  - destruct (remote (rpc_calls w)); simpl; eexists; rewrite <- ?app_assoc;
      (split; [reflexivity|]); by intros [|[|i]].
  - exists []. rewrite app_nil_r. split; [done|]. by intros [|i].
Qed.

End Logging.

(** C7: a logging failure does not abort the run, and the logger waits for
    its one call only.  Take two remote services that differ only in how
    they answer the SEND_LOG calls of an invocation, one letting them
    succeed and the other letting them fail in any way: the invocation is
    the same under both, effect for effect, with the same outcome of the run
    function and the same report.  And every logger call settles as
    resolved once its one SEND_LOG call has settled, with no retry and no
    wait of its own; when the properties cannot be serialized it makes no
    call at all, and resolves all the same. *)
Theorem logging_failure_does_not_abort_run
    (remote remote' : nat -> Reply) (data : TriggerWorkflow) (w : World) :
  (forall i, methods (since w (TRIGGER_WORKFLOW remote data w).2) !! i <> Some SEND_LOG ->
             remote' (rpc_calls w + i) = remote (rpc_calls w + i)) ->
  TRIGGER_WORKFLOW remote' data w = TRIGGER_WORKFLOW remote data w
  /\ forall (level msg : string) (properties : JsValue) (w1 : World),
      (ContextLogger (ctx_logger remote' data) level msg properties w1).1 = Fulfilled tt
      /\ since w1 (ContextLogger (ctx_logger remote' data) level msg properties w1).2
         = match JSON_stringify (or_empty_object properties) with
           | inr text => [RpcSend SEND_LOG (SendLog (data_id data) level msg text)]
           | inl _ => []
           end.
Proof.
  intros Hext. split.
  - rewrite !TRIGGER_WORKFLOW_halves in *.
    set (w1 := mkWorld (client w)
                 ((transcript w ++ [ConsoleLog [ArgString "TRIGGER_WORKFLOW"; ArgData data]])
                  ++ [RunCalled (data_trigger_input data) (context_of data)])
                 (rpc_calls w) (floating w)) in *.
    set (p := options_run (trigger_options (trigger (client w)))
                (data_trigger_input data) (context_of data)) in *.
    change (call_run remote (client w) data (context_of data) (at_call data w))
      with (run_program remote data p w1) in *.
    change (call_run remote' (client w) data (context_of data) (at_call data w))
      with (run_program remote' data p w1).
    destruct (run_program_effects remote data p w1)
      as (_ & _ & _ & d & Ht & [Hd _] & Hn).
    destruct (context_calls_quiet d Hd) as (_ & _ & _ & _ & _ & _ & _ & _ & _ & Hlen).
    assert (Hfinal : exists tail,
              since w (match run_program remote data p w1 with
                       | (Fulfilled promise, w2) => detach (then_catch remote data promise) w2
                       | (Rejected thrown, w2) => (Rejected thrown, w2)
                       | (Pending, w2) => (Pending, w2)
                       end).2
              = [ConsoleLog [ArgString "TRIGGER_WORKFLOW"; ArgData data];
                 RunCalled (data_trigger_input data) (context_of data)] ++ d ++ tail
              /\ forall i, methods tail !! i <> Some SEND_LOG).
    { destruct (run_program remote data p w1) as [[promise|thrown|] w2]; simpl in *.
      - destruct (then_catch_methods remote data promise w2) as (tail & Htail & Hm).
        exists tail. split; [|done]. apply since_app. unfold detach.
        destruct (then_catch remote data promise w2) as [settled w3]. simpl in *.
        rewrite Htail, Ht. subst w1. simpl. by rewrite <- !app_assoc.
      - exists []. split; [|by intros [|i]]. apply since_app.
        rewrite Ht. subst w1. simpl. by rewrite <- !app_assoc, app_nil_r.
      - exists []. split; [|by intros [|i]]. apply since_app.
        rewrite Ht. subst w1. simpl. by rewrite <- !app_assoc, app_nil_r. }
    destruct Hfinal as (tail & Hsince & Htail). rewrite Hsince in Hext.
    unfold methods in Hext. rewrite omap_head_quiet, omap_app in Hext by done.
    fold (methods d) (methods tail) in Hext.
    assert (Hrun : run_program remote' data p w1 = run_program remote data p w1).
    { apply (run_program_logging_ext remote remote' data p w1 d Ht).
      intros i Hi. apply Hext.
      destruct (decide (i < length (methods d))) as [Hlt|Hge].
      - by rewrite lookup_app_l.
      - rewrite lookup_app_r by lia. apply Htail. }
    rewrite Hrun.
    destruct (run_program remote data p w1) as [[promise|thrown|] w2]; simpl in *; try done.
    unfold detach. rewrite (then_catch_ext remote remote' data promise w2); [done|].
    intros i Hi. replace i with (rpc_calls w + (i - rpc_calls w)) by lia.
    apply Hext. rewrite lookup_app_r by lia. apply Htail.
  - intros level msg properties w1.
    unfold ContextLogger, ctx_logger, serverRPC_send. async.
    destruct (JSON_stringify (or_empty_object properties)) as [thrown|text]; simpl.
    + split; [done|]. apply since_app. by rewrite app_nil_r.
    + destruct (remote' (rpc_calls w1)); simpl; (split; [done|]); by apply since_app.
Qed.

(** A run function that awaits its logger call and would let a rejection
    escape: the SEND_LOG call fails, and the run resolves and is reported
    as complete, as when the call succeeds. *)
Lemma logging_failure_does_not_abort_run_witness :
  let w := initial_world (started (demo_client logs_then_returns) (Some demo_connection)
                            (mkZodRPC demo_connection) true) in
  methods (since w (TRIGGER_WORKFLOW all_success demo_data w).2)
  = [SEND_LOG; COMPLETE_WORKFLOW_RUN]
  /\ fails_once 0 = inl connection_lost
  /\ TRIGGER_WORKFLOW fails_once demo_data w = TRIGGER_WORKFLOW all_success demo_data w
  /\ run_settlements (since w (TRIGGER_WORKFLOW fails_once demo_data w).2)
     = [Fulfilled (JsObject [("y", JsNumber number_2)])].
Proof.
  intros w. split; [reflexivity|]. split; [reflexivity|].
  assert (Hext : forall i,
            methods (since w (TRIGGER_WORKFLOW all_success demo_data w).2) !! i
            <> Some SEND_LOG ->
            fails_once (rpc_calls w + i) = all_success (rpc_calls w + i)).
  { intros [|i] Hi; [by destruct Hi|reflexivity]. }
  split; [|reflexivity].
  exact (proj1 (logging_failure_does_not_abort_run all_success fails_once demo_data w Hext)).
Defined.

(** ** What the retry loop logs *)

Section RetryLog.
Variable remote : nat -> Reply.

Lemma send_loop_timeouts_logged (k n : nat) m r w :
  retryIntervalMs (client w) = 3000%N ->
  (forall i, i < k -> is_timeout (remote (rpc_calls w + i)) = true) ->
  exists w',
    send_loop remote (k + n) m r w = send_loop remote n m r w'
    /\ rpc_calls w' = rpc_calls w + k
    /\ exists d,
        transcript w' = transcript w ++ d
        /\ console_logs d
           = flat_map (fun i => timeout_lines (remote i)) (seq (rpc_calls w) k).
Proof.
  revert w. induction k as [|k IH]; intros w Hms Hto.
  - exists w. rewrite Nat.add_0_r. repeat split; try done. exists []. by rewrite app_nil_r.
  - pose proof (Hto 0 ltac:(lia)) as H0. rewrite Nat.add_0_r in H0.
    unfold is_timeout in H0.
    destruct (remote (rpc_calls w)) as [err|response] eqn:Hreply; [|done].
    set (w1 := mkWorld (client w)
                 (transcript w ++
                    [RpcSend m r;
                     ConsoleLog [ArgString "RPC call timed out, retrying in 3s..."];
                     ConsoleLog [ArgThrown err];
                     SetTimeout 3000])
                 (S (rpc_calls w)) (floating w)).
    destruct (IH w1) as (w' & Hloop & Hn & d & Ht & Hl); [done| |].
    { intros i Hi. simpl. replace (S (rpc_calls w + i)) with (rpc_calls w + S i) by lia.
      apply Hto. lia. }
    exists w'. split; [|split].
    + rewrite <- Hloop. simpl. unfold serverRPC_send. async.
      rewrite Hreply, H0. simpl. rewrite Hms. subst w1. by rewrite <- !app_assoc.
    + rewrite Hn. simpl. lia.
    + eexists. split; [rewrite Ht; simpl; rewrite <- app_assoc; reflexivity|].
      unfold console_logs in *. rewrite omap_app, Hl. simpl. by rewrite Hreply.
Qed.

End RetryLog.

(** Through [#send] on a client the constructor built, every attempt that
    times out is logged with two lines, the notice that the call is retried
    in 3 s and then the error itself, in the order of the attempts; the
    attempt that ends the call is not logged. *)
Theorem send_logs_every_timeout
    (remote : nat -> Reply) (trigger : Trigger) (options : TriggerOptions)
    (process_env : gmap string string) (c : TriggerClient)
    (conn : option HostConnection) (rpc : ZodRPC) (flag : bool)
    (t : list Effect) (calls : nat) (fl : list (Promise unit))
    (methodName : MethodName) (request : Request) (k fuel : nat) :
  new_TriggerClient trigger options process_env = inr c ->
  (forall i, i < k -> is_timeout (remote (calls + i)) = true) ->
  is_timeout (remote (calls + k)) = false ->
  k < fuel ->
  console_logs
    (since (mkWorld (started c conn rpc flag) t calls fl)
       (send remote fuel methodName request (mkWorld (started c conn rpc flag) t calls fl)).2)
  = flat_map (fun i => timeout_lines (remote i)) (seq calls k).
Proof.
  intros Hnew Hto Hlast Hfuel.
  set (w := mkWorld (started c conn rpc flag) t calls fl).
  assert (Hms : retryIntervalMs (client w) = 3000%N).
  { unfold new_TriggerClient in Hnew. destruct (falsy _); [done|].
    injection Hnew as <-. done. }
  rewrite send_started by done.
  destruct (send_loop_timeouts_logged remote k (fuel - k) methodName request w Hms Hto)
    as (w' & Hloop & Hn & d & Ht & Hl).
  replace (k + (fuel - k)) with fuel in Hloop by lia. rewrite Hloop.
  destruct (fuel - k) as [|n] eqn:E; [lia|].
  simpl. unfold serverRPC_send. async. rewrite Hn. simpl in Hlast.
  unfold is_timeout in Hlast.
  destruct (remote (calls + k)) as [err|response]; [rewrite Hlast|]; simpl;
    (erewrite since_app; [|simpl; rewrite Ht, <- app_assoc; reflexivity]);
    unfold console_logs in *; rewrite omap_app, Hl; simpl; by rewrite app_nil_r.
Qed.

Lemma send_logs_every_timeout_witness :
  console_logs
    (since (mkWorld (started (demo_client returns_y2) (Some demo_connection)
                       (mkZodRPC demo_connection) true) [] 0 [])
       (send times_out_twice 5 INITIALIZE_HOST handshake_request
          (mkWorld (started (demo_client returns_y2) (Some demo_connection)
                      (mkZodRPC demo_connection) true) [] 0 [])).2)
  = [[ArgString "RPC call timed out, retrying in 3s..."]; [ArgThrown timeout_error];
     [ArgString "RPC call timed out, retrying in 3s..."]; [ArgThrown timeout_error]].
Proof.
  assert (Hnew : new_TriggerClient (demo_trigger returns_y2) (demo_options returns_y2) ∅
                 = inr (demo_client returns_y2)) by reflexivity.
  assert (Hto : forall i, i < 2 -> is_timeout (times_out_twice (0 + i)) = true).
  { intros [|[|i]] Hi; [reflexivity|reflexivity|lia]. }
  exact (send_logs_every_timeout times_out_twice (demo_trigger returns_y2)
           (demo_options returns_y2) ∅ (demo_client returns_y2) (Some demo_connection)
           (mkZodRPC demo_connection) true [] 0 [] INITIALIZE_HOST handshake_request 2 5
           Hnew Hto eq_refl ltac:(lia)).
Defined.

(** ** The flag nobody reads *)

Section Flag.
Variable remote : nat -> Reply.

Lemma ContextLogger_with_client data level msg properties c w :
  ContextLogger (ctx_logger remote data) level msg properties (with_client c w)
  = ((ContextLogger (ctx_logger remote data) level msg properties w).1,
     with_client c (ContextLogger (ctx_logger remote data) level msg properties w).2).
Proof.
  unfold ContextLogger, ctx_logger, serverRPC_send, with_client. async.
  destruct (JSON_stringify (or_empty_object properties)); simpl; [done|].
  by destruct (remote (rpc_calls w)).
Qed.

Lemma ctx_fireEvent_with_client data event c w :
  ctx_fireEvent remote data event (with_client c w)
  = ((ctx_fireEvent remote data event w).1,
     with_client c (ctx_fireEvent remote data event w).2).
Proof.
  unfold ctx_fireEvent, serverRPC_send, with_client. async.
  destruct (JSON_roundtrip event); simpl; [done|].
  by destruct (remote (rpc_calls w)).
Qed.

Lemma run_program_with_client data p c w :
  run_program remote data p (with_client c w)
  = ((run_program remote data p w).1, with_client c (run_program remote data p w).2).
Proof.
  revert w. induction p as [output|thrown| |thrown|level msg properties k IH|event k IH];
    intros w; try done.
  - cbn [run_program]. unfold settled_then. rewrite ContextLogger_with_client.
    destruct (ContextLogger (ctx_logger remote data) level msg properties w). apply IH.
  - cbn [run_program]. unfold settled_then. rewrite ctx_fireEvent_with_client.
    destruct (ctx_fireEvent remote data event w). apply IH.
Qed.

Lemma then_catch_with_client data promise c w :
  then_catch remote data promise (with_client c w)
  = ((then_catch remote data promise w).1,
     with_client c (then_catch remote data promise w).2).
Proof.
  unfold then_catch, settling, serverRPC_send, with_client. async.
  destruct promise as [output|thrown|]; simpl; [| |done].
  - destruct (JSON_stringify output); simpl.
    + by destruct (remote (rpc_calls w)).
    + destruct (remote (rpc_calls w)); simpl; [|done].
      by destruct (remote (S (rpc_calls w))).
  - by destruct (remote (rpc_calls w)).
Qed.

Lemma deliver_with_flag i b w :
  (deliver remote i (with_client (set_isConnected b (client w)) w)).2
  = with_client (set_isConnected b (client w)) (deliver remote i w).2.
Proof.
  destruct i as [code reason|data]; simpl.
  - unfold onClose. async. by destruct (String.eqb reason "").
  - rewrite !TRIGGER_WORKFLOW_halves.
    set (c := set_isConnected b (client w)).
    change (at_call data (with_client c w)) with (with_client c (at_call data w)).
    change (client (with_client c w)) with c.
    unfold call_run.
    change (emit ?e ;; ?m) with (fun w0 : World => m (emit e w0).2).
    cbv beta.
    change ((emit ?e (with_client c ?w0)).2) with (with_client c (emit e w0).2).
    change (options_run (trigger_options (trigger c)))
      with (options_run (trigger_options (trigger (client w)))).
    rewrite run_program_with_client.
    destruct (run_program remote data _ _) as [[promise|thrown|] w2]; simpl; try done.
    unfold detach. rewrite then_catch_with_client.
    by destruct (then_catch remote data promise w2).
Qed.

Lemma deliver_all_with_flag inbound b w :
  deliver_all remote inbound (with_client (set_isConnected b (client w)) w)
  = with_client (set_isConnected b (client w)) (deliver_all remote inbound w).
Proof.
  revert w. induction inbound as [|i inbound IH]; intros w; [done|].
  change (deliver_all remote (i :: inbound) ?x)
    with (deliver_all remote inbound (deliver remote i x).2).
  rewrite deliver_with_flag.
  rewrite <- (deliver_client remote i w). apply IH.
Qed.

End Flag.

(** No handler reads [#isConnected]: with the flag set or cleared, the same
    inbound closes and invocations lead to the same effects, the same calls
    on the channel and the same promises.  A client whose connection has
    closed goes on running invocations and putting calls on the channel. *)
Theorem isConnected_is_never_read
    (remote : nat -> Reply) (inbound : list Inbound) (b : bool) (w : World) :
  transcript (deliver_all remote inbound (with_client (set_isConnected b (client w)) w))
  = transcript (deliver_all remote inbound w)
  /\ rpc_calls (deliver_all remote inbound (with_client (set_isConnected b (client w)) w))
     = rpc_calls (deliver_all remote inbound w)
  /\ floating (deliver_all remote inbound (with_client (set_isConnected b (client w)) w))
     = floating (deliver_all remote inbound w).
Proof. by rewrite deliver_all_with_flag. Qed.

(** ** The documented example *)

Lemma flagged_spec (moderationRun : TaskRun) :
  moderationRun = RunOk (JsBool true)
  \/ (moderationRun <> RunOk (JsBool true) /\ flagged moderationRun = false).
Proof.
  destruct moderationRun as [[| |[]| | | | | | | |]|error]; simpl; (by left) || (by right).
Qed.

(** The moderation verdict comes first and only the boolean [true] of a
    successful moderation run counts: then the fixed apology is returned,
    even when no response could be generated.  In every other case, a
    failed moderation run included, a generated response is passed on as not
    inappropriate; the task throws exactly when the question is not flagged
    and the response run failed. *)
Theorem moderation_verdict_comes_first (responseRun moderationRun : TaskRun) :
  (moderationRun = RunOk (JsBool true) <->
   handleCustomerQuestion responseRun moderationRun
   = inr (JsObject
            [("response",
              JsString "I apologize, but I cannot process this request as it contains inappropriate content.");
             ("wasInappropriate", JsBool true)]))
  /\ (forall output,
        moderationRun <> RunOk (JsBool true) ->
        responseRun = RunOk output ->
        handleCustomerQuestion responseRun moderationRun
        = inr (JsObject [("response", output); ("wasInappropriate", JsBool false)]))
  /\ ((exists err, handleCustomerQuestion responseRun moderationRun = inl err)
      <-> moderationRun <> RunOk (JsBool true) /\ exists error, responseRun = RunNotOk error).
Proof.
  unfold handleCustomerQuestion.
  destruct (flagged_spec moderationRun) as [-> | [Hne Hf]].
  - simpl. split; [done|]. split; [done|].
    split; [by intros [err Herr]|by intros [Hne _]].
  - rewrite Hf. split; [|split].
    + split; [done|]. by destruct responseRun.
    + by intros output _ ->.
    + destruct responseRun as [output|error]; split.
      * by intros [err Herr].
      * by intros [_ [error Herr]].
      * intros _. split; [done|by eexists].
      * intros _. by eexists.
Qed.
